(** * Service Catalog backend (moto/servicecatalog/models.py)

    A shallow embedding of [Portfolio] and [ServiceCatalogBackend] and the
    properties of the portfolio registry: idempotent creation, deletion,
    account and organisation shares, and the paginated access listing.

    Python values are embedded as follows.
    - [str] is [string]; [Optional[str]] is [option string]; the test
      [if x:] on such a value is [truthy_str] (present and non-empty).
    - [Dict[str, str]] is [gmap string string]; [if d:] on an optional
      dictionary is [truthy_dict] (present and non-empty).
    - [self.portfolio_access] and [self.idempotency_tokens] are only looked
      up, assigned and deleted by key, so they are [gmap]s.
    - [self.portfolios] is iterated by [list_portfolios], so it keeps
      Python's insertion order: an association list with the dictionary
      operations [dict_get], [dict_set], [dict_del].
    - [uuid.uuid4()] and [datetime.now()] are read from the environment:
      the generated id and the clock reading are arguments of
      [create_portfolio].
    - The parameter [accept_language] (and [organization_parent_id] of
      [list_portfolio_access]) is never read by the source and is left out. *)

From stdpp Require Import gmap strings pretty list fin_maps.

#[local] Set Warnings "-clear-no-such-hyp".

Open Scope string_scope.
Open Scope list_scope.

(** ** Python truthiness

    [truthy_str x] is the string tested by [if x:] when the test succeeds:
    [x] is not [None] and not the empty string. Likewise for dictionaries
    and lists, so that [x or dflt] is [default dflt (truthy x)]. *)

Definition truthy_str (x : option string) : option string :=
  match x with
  | Some s => if decide (s = "") then None else Some s
  | None => None
  end.

Definition truthy_dict (d : option (gmap string string))
  : option (gmap string string) :=
  match d with
  | Some m => if decide (m = ∅) then None else Some m
  | None => None
  end.

Definition truthy_list {A} (l : option (list A)) : option (list A) :=
  match l with
  | Some (x :: l') => Some (x :: l')
  | _ => None
  end.

(** [d.get(k, '')] *)
Definition get_or_empty (d : gmap string string) (k : string) : string :=
  default "" (d !! k).

(** ** Insertion-ordered dictionaries *)

Section ordered_dict.
Context {V : Type}.

Fixpoint dict_get (k : string) (d : list (string * V)) : option V :=
  match d with
  | [] => None
  | (k', v) :: d' => if decide (k = k') then Some v else dict_get k d'
  end.

Definition dict_in (k : string) (d : list (string * V)) : bool :=
  bool_decide (is_Some (dict_get k d)).

(** [d[k] = v]: an existing key keeps its position, a new key goes last. *)
Fixpoint dict_set (k : string) (v : V) (d : list (string * V))
  : list (string * V) :=
  match d with
  | [] => [(k, v)]
  | (k', v') :: d' =>
      if decide (k = k') then (k, v) :: d' else (k', v') :: dict_set k v d'
  end.

(** [del d[k]] *)
Fixpoint dict_del (k : string) (d : list (string * V)) : list (string * V) :=
  match d with
  | [] => []
  | (k', v') :: d' =>
      if decide (k = k') then dict_del k d' else (k', v') :: dict_del k d'
  end.

Definition dict_values (d : list (string * V)) : list V := d.*2.
End ordered_dict.

(** [l.remove(x)]: drops the first occurrence of [x]. The source only calls
    it under [if x in l], where it cannot raise. *)
Fixpoint list_remove (x : string) (l : list string) : list string :=
  match l with
  | [] => []
  | y :: l' => if decide (x = y) then l' else y :: list_remove x l'
  end.

(** ** class Portfolio *)

Record Portfolio := mkPortfolio {
  portfolio_id : string;
  display_name : string;
  description : string;
  provider_name : string;
  created_time : Z;
  tags : list (gmap string string);
  region_name : string;
  account_id : string
}.

(** ** class ServiceCatalogBackend *)

Record ServiceCatalogBackend := mkBackend {
  backend_region_name : string;
  backend_account_id : string;
  portfolio_access : gmap string (list string);
  portfolios : list (string * Portfolio);
  idempotency_tokens : gmap string string
}.

(** [__init__] *)
Definition init (region account : string) : ServiceCatalogBackend :=
  {| backend_region_name := region;
     backend_account_id := account;
     portfolio_access := ∅;
     portfolios := [];
     idempotency_tokens := ∅ |}.

Definition set_portfolio_access (f : gmap string (list string) →
                                     gmap string (list string))
    (s : ServiceCatalogBackend) : ServiceCatalogBackend :=
  {| backend_region_name := backend_region_name s;
     backend_account_id := backend_account_id s;
     portfolio_access := f (portfolio_access s);
     portfolios := portfolios s;
     idempotency_tokens := idempotency_tokens s |}.

Definition set_portfolios (f : list (string * Portfolio) →
                               list (string * Portfolio))
    (s : ServiceCatalogBackend) : ServiceCatalogBackend :=
  {| backend_region_name := backend_region_name s;
     backend_account_id := backend_account_id s;
     portfolio_access := portfolio_access s;
     portfolios := f (portfolios s);
     idempotency_tokens := idempotency_tokens s |}.

Definition set_idempotency_tokens (f : gmap string string →
                                       gmap string string)
    (s : ServiceCatalogBackend) : ServiceCatalogBackend :=
  {| backend_region_name := backend_region_name s;
     backend_account_id := backend_account_id s;
     portfolio_access := portfolio_access s;
     portfolios := portfolios s;
     idempotency_tokens := f (idempotency_tokens s) |}.

(** Exceptions, and the result of a call that may raise. *)
Inductive exception := KeyError (key : string).

Inductive outcome (A : Type) :=
| Returns (v : A) (s' : ServiceCatalogBackend)
| Raises (e : exception).
Arguments Returns {A} v s'.
Arguments Raises {A} e.

(** ** Pagination

    The decorator's configuration for [list_portfolio_access]. *)

Record pagination_config := {
  input_token : string;
  limit_key : string;
  limit_default : nat;
  unique_attribute : string
}.

Definition PAGINATION_MODEL_list_portfolio_access : pagination_config :=
  {| input_token := "page_token";
     limit_key := "page_size";
     limit_default := 20;
     unique_attribute := "account_id" |}.

(** Modelled from the spec: the decorator [moto.utilities.paginator.paginate]
    is not among the sources. The spec describes it as "[page_token] (opaque
    cursor), [page_size] (default 20) - returns a page plus a next-token when
    more results remain". The cursor is the number of records already
    returned; a page holds the next [page_size] records, or
    [limit_default] of them when no [page_size] is given. Page sizes are
    counts, so they are natural numbers. *)
Definition paginate {A} (cfg : pagination_config) (results : list A)
    (page_token : option nat) (page_size : option nat)
  : list A * option nat :=
  let start := default 0 page_token in
  let limit := default (limit_default cfg) page_size in
  let rest := drop start results in
  (take limit rest,
   if decide (limit < length rest) then Some (start + limit) else None).

(** ** The environment *)

Section servicecatalog.
(** [moto.utilities.utils.get_partition] and [datetime.isoformat] are not
    part of this file; clock readings are integers. *)
Variable get_partition : string → string.
Variable isoformat : Z → string.

Definition arn (p : Portfolio) : string :=
  "arn:" +:+ get_partition (region_name p) +:+ ":catalog:" +:+
  region_name p +:+ ":" +:+ account_id p +:+ ":portfolio/" +:+
  portfolio_id p.

Definition to_dict (p : Portfolio) : gmap string string :=
  <["ProviderName" := provider_name p]>
  (<["CreatedTime" := isoformat (created_time p)]>
  (<["Description" := description p]>
  (<["DisplayName" := display_name p]>
  (<["ARN" := arn p]>
  (<["Id" := portfolio_id p]> ∅))))).

(** The undecorated body of [list_portfolio_access]. *)
Definition list_portfolio_access_body (pid : string)
    (s : ServiceCatalogBackend) : list (gmap string string) :=
  let account_ids := default [] (portfolio_access s !! pid) in
  (λ a, {[ "account_id" := a ]}) <$> account_ids.

(** Both [del] statements run under a membership test, so neither can
    raise. *)
Definition delete_portfolio (id : string) (s : ServiceCatalogBackend)
  : ServiceCatalogBackend :=
  let s1 :=
    if bool_decide (is_Some (portfolio_access s !! id))
    then set_portfolio_access (delete id) s else s in
  if dict_in id (portfolios s1)
  then set_portfolios (dict_del id) s1 else s1.

Definition delete_portfolio_share (pid : string)
    (account : option string) (organization_node : option (gmap string string))
    (s : ServiceCatalogBackend) : option string * ServiceCatalogBackend :=
  let s1 :=
    match truthy_str account, portfolio_access s !! pid with
    | Some a, Some l =>
        if bool_decide (a ∈ l)
        then set_portfolio_access (<[pid := list_remove a l]>) s
        else s
    | _, _ => s
    end in
  let portfolio_share_token :=
    match truthy_dict organization_node with
    | Some node =>
        Some ("share-" +:+ pid +:+ "-" +:+ get_or_empty node "Type"
              +:+ "-" +:+ get_or_empty node "Value")
    | None => None
    end in
  (portfolio_share_token, s1).

(** Lines 130-149: the path that creates a portfolio. *)
Definition create_fresh (display : string) (descr : option string)
    (provider : string) (tgs : option (list (gmap string string)))
    (idempotency_token : option string)
    (uuid4 : string) (now : Z)
    (s : ServiceCatalogBackend)
  : gmap string string * list (gmap string string) * ServiceCatalogBackend :=
  let pid := uuid4 in
  let portfolio :=
    {| portfolio_id := pid;
       display_name := display;
       description := default "" (truthy_str descr);
       provider_name := provider;
       created_time := now;
       tags := default [] (truthy_list tgs);
       region_name := backend_region_name s;
       account_id := backend_account_id s |} in
  let s1 := set_portfolios (dict_set pid portfolio) s in
  let s2 :=
    match truthy_str idempotency_token with
    | Some t => set_idempotency_tokens (<[t := pid]>) s1
    | None => s1
    end in
  let s3 := set_portfolio_access (<[pid := []]>) s2 in
  (to_dict portfolio, tags portfolio, s3).

(** [idempotency_token and idempotency_token in self.idempotency_tokens]:
    the portfolio id recorded for the token, when the test succeeds. *)
Definition seen_token (token : option string) (s : ServiceCatalogBackend)
  : option string :=
  match truthy_str token with
  | Some t => idempotency_tokens s !! t
  | None => None
  end.

Definition create_portfolio (display : string) (descr : option string)
    (provider : string) (tgs : option (list (gmap string string)))
    (idempotency_token : option string)
    (uuid4 : string) (now : Z)
    (s : ServiceCatalogBackend)
  : outcome (gmap string string * list (gmap string string)) :=
  match seen_token idempotency_token s with
  | Some pid =>
      (* self.portfolios[portfolio_id] *)
      match dict_get pid (portfolios s) with
      | Some portfolio => Returns (to_dict portfolio, tags portfolio) s
      | None => Raises (KeyError pid)
      end
  | None =>
      let '(summary, tgs', s') :=
        create_fresh display descr provider tgs idempotency_token
                     uuid4 now s in
      Returns (summary, tgs') s'
  end.

Definition create_portfolio_share (pid : string)
    (account : option string) (organization_node : option (gmap string string))
    (share_tag_options share_principals : bool)
    (s : ServiceCatalogBackend) : option string * ServiceCatalogBackend :=
  if negb (dict_in pid (portfolios s)) then (None, s)
  else
    match truthy_str account with
    | Some a =>
        let s1 :=
          if bool_decide (is_Some (portfolio_access s !! pid)) then s
          else set_portfolio_access (<[pid := []]>) s in
        let l := default [] (portfolio_access s1 !! pid) in
        let s2 :=
          if bool_decide (a ∈ l) then s1
          else set_portfolio_access (<[pid := l ++ [a]]>) s1 in
        (None, s2)
    | None =>
        let portfolio_share_token :=
          match truthy_dict organization_node with
          | Some node =>
              let org_type := get_or_empty node "Type" in
              let org_value := get_or_empty node "Value" in
              let token :=
                "share-" +:+ pid +:+ "-" +:+ org_type +:+ "-" +:+ org_value in
              let token :=
                if share_tag_options then token +:+ "-tags" else token in
              let token :=
                if share_principals then token +:+ "-principals" else token in
              Some token
          | None => None
          end in
        (portfolio_share_token, s)
    end.

(** [list_portfolios]: pagination is not implemented, the token returned
    is always [None]. *)
Definition list_portfolios (s : ServiceCatalogBackend)
  : list (gmap string string) * option string :=
  (to_dict <$> dict_values (portfolios s), None).

(** [list_portfolio_access] as decorated by [@paginate]. *)
Definition list_portfolio_access (pid : string)
    (page_token : option nat) (page_size : option nat)
    (s : ServiceCatalogBackend) : list (gmap string string) * option nat :=
  paginate PAGINATION_MODEL_list_portfolio_access
           (list_portfolio_access_body pid s) page_token page_size.

(** ** Calls and reachable states *)

Inductive call :=
| CreatePortfolio (display : string) (descr : option string)
    (provider : string) (tgs : option (list (gmap string string)))
    (idempotency_token : option string) (uuid4 : string) (now : Z)
| DeletePortfolio (id : string)
| CreatePortfolioShare (pid : string) (account : option string)
    (organization_node : option (gmap string string))
    (share_tag_options share_principals : bool)
| DeletePortfolioShare (pid : string) (account : option string)
    (organization_node : option (gmap string string))
| ListPortfolioAccess (pid : string) (page_token page_size : option nat)
| ListPortfolios.

(** The backend after a call. [create_portfolio] raises before its first
    assignment, so a call that raises leaves the backend as it was. *)
Definition run (c : call) (s : ServiceCatalogBackend) : ServiceCatalogBackend :=
  match c with
  | CreatePortfolio display descr provider tgs token uuid4 now =>
      match create_portfolio display descr provider tgs token uuid4 now s with
      | Returns _ s' => s'
      | Raises _ => s
      end
  | DeletePortfolio id => delete_portfolio id s
  | CreatePortfolioShare pid account node share_tags share_princ =>
      (create_portfolio_share pid account node share_tags share_princ s).2
  | DeletePortfolioShare pid account node =>
      (delete_portfolio_share pid account node s).2
  | ListPortfolioAccess _ _ _ => s
  | ListPortfolios => s
  end.

Inductive reachable : ServiceCatalogBackend → Prop :=
| reachable_init region account : reachable (init region account)
| reachable_step c s : reachable s → reachable (run c s).

(** The backend after a sequence of calls, first call first. *)
Definition run_all (cs : list call) (s : ServiceCatalogBackend)
  : ServiceCatalogBackend :=
  foldl (λ s c, run c s) s cs.

End servicecatalog.

(** ** Invariants of the registry *)

(** Every live portfolio has an access list. *)
Definition access_covers (s : ServiceCatalogBackend) : Prop :=
  ∀ pid, dict_in pid (portfolios s) = true →
         is_Some (portfolio_access s !! pid).

(** Access lists hold each account id once, and never the empty string. *)
Definition access_lists_ok (s : ServiceCatalogBackend) : Prop :=
  ∀ pid l, portfolio_access s !! pid = Some l → NoDup l ∧ "" ∉ l.

(** Number of occurrences of an account id in an access list. *)
Definition occurrences (a : string) (l : list string) : nat :=
  length (filter (λ b, b = a) l).

(** ** A concrete registry for the examples

    One commercial region, a clock that prints the reading in decimal, and
    two generated ids. *)

Definition aws_partition (region : string) : string := "aws".
Definition clock_isoformat (t : Z) : string := "T" +:+ pretty t.

Definition uuid_a : string := "0f8fad5b-d9cb-469f-a165-70867728950e".
Definition uuid_b : string := "7c9e6679-7425-40de-944b-e07fc1f90ae7".

Definition empty_backend : ServiceCatalogBackend :=
  init "us-east-1" "123456789012".

(** The registry after one [create_portfolio] with token ["retry-1"]. *)
Definition one_portfolio : ServiceCatalogBackend :=
  run aws_partition clock_isoformat
      (CreatePortfolio "Dev tools" (Some "Team tooling") "platform" None
                       (Some "retry-1") uuid_a 1)
      empty_backend.

(** Then access granted to two accounts, one call each. *)
Definition two_grants : ServiceCatalogBackend :=
  run_all aws_partition clock_isoformat
    [CreatePortfolioShare uuid_a (Some "111111111111") None false false;
     CreatePortfolioShare uuid_a (Some "222222222222") None false false]
    one_portfolio.

(** The registry after the portfolio is deleted again; the token
    ["retry-1"] stays recorded. *)
Definition after_delete : ServiceCatalogBackend :=
  run aws_partition clock_isoformat (DeletePortfolio uuid_a) one_portfolio.

Definition org_node : gmap string string :=
  <["Type" := "ORGANIZATION"]> (<["Value" := "o-exampleorg"]> ∅).



(** ** Further invariants and examples *)

Definition dict_keys {V} (d : list (string * V)) : list string := d.*1.

(** Every stored portfolio carries its key as its id and the backend's
    region and account. *)
Definition ids_match (s : ServiceCatalogBackend) : Prop :=
  Forall (λ kv : string * Portfolio,
            portfolio_id kv.2 = kv.1 ∧
            region_name kv.2 = backend_region_name s ∧
            account_id kv.2 = backend_account_id s)
         (portfolios s).

(** Only live portfolios have an access list. *)
Definition access_only_live (s : ServiceCatalogBackend) : Prop :=
  ∀ pid, is_Some (portfolio_access s !! pid) →
         dict_in pid (portfolios s) = true.

(** Every recorded idempotency token names a live portfolio. *)
Definition tokens_live (s : ServiceCatalogBackend) : Prop :=
  ∀ t pid, idempotency_tokens s !! t = Some pid →
           dict_in pid (portfolios s) = true.

Definition is_delete (c : call) : bool :=
  match c with
  | DeletePortfolio _ => true
  | _ => false
  end.

(** The [Id] entries of a listing of summaries. *)
Definition listed_ids (l : list (gmap string string)) : list (option string) :=
  (λ d : gmap string string, d !! "Id") <$> l.

(** The registry after a second [create_portfolio], without a token. *)
Definition two_portfolios : ServiceCatalogBackend :=
  run aws_partition clock_isoformat
      (CreatePortfolio "Data tools" None "analytics" None None uuid_b 2)
      one_portfolio.

(** ** Properties of the containers *)

Section ordered_dict_facts.
Context {V : Type}.
Implicit Types (d : list (string * V)) (k : string) (v : V).

Lemma dict_in_true k d : dict_in k d = true ↔ is_Some (dict_get k d).
Proof. unfold dict_in. by rewrite bool_decide_eq_true. Qed.

Lemma dict_in_false k d : dict_in k d = false ↔ dict_get k d = None.
Proof.
  unfold dict_in. rewrite bool_decide_eq_false.
  by rewrite eq_None_not_Some.
Qed.

Lemma dict_get_set_eq k v d : dict_get k (dict_set k v d) = Some v.
Proof.
  induction d as [|[k' v'] d IH]; simpl.
  - by rewrite decide_True.
  - destruct (decide (k = k')) as [->|Hne]; simpl.
    + by rewrite decide_True.
    + by rewrite decide_False.
Qed.

Lemma dict_get_set_ne k k' v d :
  k ≠ k' → dict_get k' (dict_set k v d) = dict_get k' d.
Proof.
  intros Hne. induction d as [|[k0 v0] d IH]; simpl.
  - by rewrite decide_False.
  - destruct (decide (k = k0)) as [->|Hk]; simpl.
    + by rewrite !decide_False.
    + by rewrite IH.
Qed.

Lemma dict_get_del_eq k d : dict_get k (dict_del k d) = None.
Proof.
  induction d as [|[k' v'] d IH]; simpl; [done|].
  destruct (decide (k = k')) as [->|Hne]; simpl; [done|].
  by rewrite decide_False.
Qed.

Lemma dict_get_del_ne k k' d :
  k ≠ k' → dict_get k' (dict_del k d) = dict_get k' d.
Proof.
  intros Hne. induction d as [|[k0 v0] d IH]; simpl; [done|].
  destruct (decide (k = k0)) as [->|Hk]; simpl.
  - by rewrite decide_False.
  - by rewrite IH.
Qed.

Lemma dict_del_absent k d : dict_get k d = None → dict_del k d = d.
Proof.
  induction d as [|[k' v'] d IH]; simpl; [done|].
  destruct (decide (k = k')); [done|]. intros H. by rewrite IH.
Qed.

Lemma dict_in_set k k' v d :
  dict_in k' (dict_set k v d) = true ↔ k' = k ∨ dict_in k' d = true.
Proof.
  rewrite !dict_in_true. destruct (decide (k = k')) as [->|Hne].
  - rewrite dict_get_set_eq. naive_solver.
  - rewrite dict_get_set_ne by done. naive_solver.
Qed.

Lemma dict_in_del k k' d :
  dict_in k' (dict_del k d) = true ↔ k' ≠ k ∧ dict_in k' d = true.
Proof.
  rewrite !dict_in_true. destruct (decide (k = k')) as [->|Hne].
  - rewrite dict_get_del_eq. split; [by intros [? ?]|naive_solver].
  - rewrite dict_get_del_ne by done. naive_solver.
Qed.
End ordered_dict_facts.

Lemma list_remove_subset x y l : y ∈ list_remove x l → y ∈ l.
Proof.
  induction l as [|z l IH]; simpl; [done|].
  destruct (decide (x = z)); set_solver.
Qed.

Lemma list_remove_other x y l : y ≠ x → y ∈ l → y ∈ list_remove x l.
Proof.
  intros Hne. induction l as [|z l IH]; simpl; [done|].
  destruct (decide (x = z)); set_solver.
Qed.

Lemma list_remove_absent x l : x ∉ l → list_remove x l = l.
Proof.
  induction l as [|z l IH]; simpl; [done|].
  destruct (decide (x = z)) as [->|Hne]; [set_solver|].
  intros Hnot. f_equal. apply IH. set_solver.
Qed.

Lemma list_remove_NoDup x l : NoDup l → NoDup (list_remove x l).
Proof.
  induction 1 as [|z l Hz Hl IH]; simpl; [constructor|].
  destruct (decide (x = z)); [done|].
  constructor; [|done]. intros Hin. by apply Hz, (list_remove_subset x).
Qed.

Lemma list_remove_gone x l : NoDup l → x ∉ list_remove x l.
Proof.
  induction 1 as [|z l Hz Hl IH]; simpl; [set_solver|].
  destruct (decide (x = z)) as [->|Hne]; [done|]. set_solver.
Qed.

Lemma occurrences_absent a l : a ∉ l → occurrences a l = 0.
Proof.
  unfold occurrences. induction l as [|b l IH]; [done|].
  intros Hnot. rewrite filter_cons. destruct (decide (b = a)); set_solver.
Qed.

Lemma occurrences_NoDup a l : NoDup l → a ∈ l → occurrences a l = 1.
Proof.
  unfold occurrences. induction 1 as [|b l Hb Hl IH]; [set_solver|].
  intros Hin. rewrite filter_cons. destruct (decide (b = a)) as [->|Hne].
  - simpl. f_equal. by apply occurrences_absent.
  - apply IH. set_solver.
Qed.

Lemma occurrences_snoc a l : occurrences a (l ++ [a]) = S (occurrences a l).
Proof.
  unfold occurrences. rewrite filter_app, length_app, filter_cons.
  rewrite decide_True by done. simpl. lia.
Qed.

Lemma append_cons c s1 s2 : String c s1 +:+ s2 = String c (s1 +:+ s2).
Proof. reflexivity. Qed.

Lemma append_nil_l s : "" +:+ s = s.
Proof. reflexivity. Qed.

Lemma append_nil_r s : s +:+ "" = s.
Proof. induction s as [|c s IH]; [done|]. by rewrite append_cons, IH. Qed.

Lemma append_assoc s1 s2 s3 : (s1 +:+ s2) +:+ s3 = s1 +:+ (s2 +:+ s3).
Proof.
  induction s1 as [|c s1 IH]; [done|]. by rewrite !append_cons, IH.
Qed.

Lemma truthy_str_Some x a : truthy_str x = Some a ↔ x = Some a ∧ a ≠ "".
Proof.
  unfold truthy_str. destruct x as [s|]; [|naive_solver].
  destruct (decide (s = "")); naive_solver.
Qed.

Lemma truthy_str_nonempty a : a ≠ "" → truthy_str (Some a) = Some a.
Proof. intros. by apply truthy_str_Some. Qed.

Lemma truthy_dict_Some d m : truthy_dict d = Some m ↔ d = Some m ∧ m ≠ ∅.
Proof.
  unfold truthy_dict. destruct d as [m'|]; [|naive_solver].
  destruct (decide (m' = ∅)); naive_solver.
Qed.

(** ** The state after each operation *)

Section operations.
Context (get_partition : string → string) (isoformat : Z → string).
Implicit Types (s : ServiceCatalogBackend) (pid id a : string).

Lemma delete_portfolio_state id s :
  delete_portfolio id s =
  {| backend_region_name := backend_region_name s;
     backend_account_id := backend_account_id s;
     portfolio_access := delete id (portfolio_access s);
     portfolios := dict_del id (portfolios s);
     idempotency_tokens := idempotency_tokens s |}.
Proof.
  unfold delete_portfolio. destruct s as [r acc pa ps tk]; simpl.
  case_bool_decide as Ha; simpl.
  - destruct (dict_in id ps) eqn:Hp; simpl; [done|].
    apply dict_in_false in Hp. by rewrite dict_del_absent.
  - apply eq_None_not_Some in Ha. rewrite (delete_id pa id) by done.
    destruct (dict_in id ps) eqn:Hp; simpl; [done|].
    apply dict_in_false in Hp. by rewrite dict_del_absent.
Qed.

Lemma share_of_unknown_portfolio pid account node tg pr s :
  dict_in pid (portfolios s) = false →
  create_portfolio_share pid account node tg pr s = (None, s).
Proof. intros H. unfold create_portfolio_share. by rewrite H. Qed.

Lemma create_portfolio_share_account pid a node tg pr s :
  dict_in pid (portfolios s) = true → a ≠ "" →
  create_portfolio_share pid (Some a) node tg pr s =
  (None,
   let l := default [] (portfolio_access s !! pid) in
   set_portfolio_access (<[pid := if bool_decide (a ∈ l) then l else l ++ [a]]>) s).
Proof.
  intros Hlive Ha. unfold create_portfolio_share.
  rewrite Hlive, truthy_str_nonempty by done. simpl. f_equal.
  destruct s as [r acc pa ps tk]; unfold set_portfolio_access; simpl.
  destruct (pa !! pid) as [l|] eqn:Hl; simpl.
  - rewrite Hl. simpl. case_bool_decide; [|done]. by rewrite insert_id.
  - rewrite lookup_insert_eq. simpl.
    by rewrite insert_insert_eq.
Qed.

Lemma create_portfolio_share_state pid account node tg pr s :
  (create_portfolio_share pid account node tg pr s).2 = s ∨
  ∃ a l, a ≠ "" ∧ dict_in pid (portfolios s) = true ∧
         l = default [] (portfolio_access s !! pid) ∧
         (create_portfolio_share pid account node tg pr s).2 =
         set_portfolio_access
           (<[pid := if bool_decide (a ∈ l) then l else l ++ [a]]>) s.
Proof.
  destruct (dict_in pid (portfolios s)) eqn:Hlive.
  - destruct (truthy_str account) as [a|] eqn:Ht.
    + apply truthy_str_Some in Ht as [-> Ha]. right.
      exists a, (default [] (portfolio_access s !! pid)).
      by rewrite create_portfolio_share_account.
    + left. unfold create_portfolio_share. by rewrite Hlive, Ht.
  - left. by rewrite share_of_unknown_portfolio.
Qed.

Lemma delete_portfolio_share_state pid account node s :
  (delete_portfolio_share pid account node s).2 = s ∨
  ∃ a l, a ≠ "" ∧ account = Some a ∧ portfolio_access s !! pid = Some l ∧
         a ∈ l ∧
         (delete_portfolio_share pid account node s).2 =
         set_portfolio_access (<[pid := list_remove a l]>) s.
Proof.
  unfold delete_portfolio_share; simpl.
  destruct (truthy_str account) as [a|] eqn:Ht; [|by left].
  apply truthy_str_Some in Ht as [-> Ha].
  destruct (portfolio_access s !! pid) as [l|] eqn:Hl; [|by left].
  case_bool_decide; [|by left]. right. by exists a, l.
Qed.

Lemma create_portfolio_seen display descr provider tgs token uuid4 now s pid p :
  seen_token token s = Some pid →
  dict_get pid (portfolios s) = Some p →
  create_portfolio get_partition isoformat
    display descr provider tgs token uuid4 now s =
  Returns (to_dict get_partition isoformat p, tags p) s.
Proof.
  unfold create_portfolio. intros Hseen Hp. by rewrite Hseen, Hp.
Qed.

Lemma create_portfolio_stale display descr provider tgs token uuid4 now s pid :
  seen_token token s = Some pid →
  dict_get pid (portfolios s) = None →
  create_portfolio get_partition isoformat
    display descr provider tgs token uuid4 now s = Raises (KeyError pid).
Proof.
  unfold create_portfolio. intros Hseen Hp. by rewrite Hseen, Hp.
Qed.

Lemma create_portfolio_unseen display descr provider tgs token uuid4 now s :
  seen_token token s = None →
  create_portfolio get_partition isoformat
    display descr provider tgs token uuid4 now s =
  Returns (create_fresh get_partition isoformat
             display descr provider tgs token uuid4 now s).1
          (create_fresh get_partition isoformat
             display descr provider tgs token uuid4 now s).2.
Proof.
  unfold create_portfolio. intros Hseen. rewrite Hseen.
  by destruct (create_fresh _ _ _ _ _ _ _ _ _ _) as [[? ?] ?].
Qed.

(** ** Preservation of the invariants *)

Lemma create_fresh_access_covers display descr provider tgs token uuid4 now s :
  access_covers s →
  access_covers (create_fresh get_partition isoformat
                   display descr provider tgs token uuid4 now s).2.
Proof.
  intros Hinv pid. unfold create_fresh; simpl.
  destruct (truthy_str token); simpl;
    (intros [->|Hin]%dict_in_set;
     [by rewrite lookup_insert_eq|];
     destruct (decide (uuid4 = pid)) as [->|Hne];
     [by rewrite lookup_insert_eq|];
     rewrite lookup_insert_ne by done; by apply Hinv).
Qed.

Lemma create_fresh_access_lists_ok display descr provider tgs token uuid4 now s :
  access_lists_ok s →
  access_lists_ok (create_fresh get_partition isoformat
                     display descr provider tgs token uuid4 now s).2.
Proof.
  intros Hinv pid l. unfold create_fresh; simpl.
  destruct (truthy_str token); simpl;
    (destruct (decide (uuid4 = pid)) as [->|Hne];
     [rewrite lookup_insert_eq; intros [= <-]; split; [constructor|set_solver]
     |rewrite lookup_insert_ne by done; apply Hinv]).
Qed.

Lemma run_access_covers c s :
  access_covers s → access_covers (run get_partition isoformat c s).
Proof.
  intros Hinv. destruct c; cbn [run]; try done.
  - destruct (seen_token idempotency_token s) as [pid|] eqn:Hseen.
    + destruct (dict_get pid (portfolios s)) as [p|] eqn:Hp.
      * by erewrite create_portfolio_seen.
      * by erewrite create_portfolio_stale.
    + rewrite create_portfolio_unseen by done.
      by apply create_fresh_access_covers.
  - rewrite delete_portfolio_state. intros pid; simpl.
    intros [Hne Hin]%dict_in_del. rewrite lookup_delete_ne by done.
    by apply Hinv.
  - destruct (create_portfolio_share_state pid account organization_node
                share_tag_options share_principals s)
      as [->|(a & l & _ & _ & _ & ->)]; [done|].
    intros pid'; simpl. intros Hin.
    destruct (decide (pid = pid')) as [->|Hne].
    + by rewrite lookup_insert_eq.
    + rewrite lookup_insert_ne by done. by apply Hinv.
  - destruct (delete_portfolio_share_state pid account organization_node s)
      as [->|(a & l & _ & _ & _ & _ & ->)]; [done|].
    intros pid'; simpl. intros Hin.
    destruct (decide (pid = pid')) as [->|Hne].
    + by rewrite lookup_insert_eq.
    + rewrite lookup_insert_ne by done. by apply Hinv.
Qed.

Lemma run_access_lists_ok c s :
  access_lists_ok s → access_lists_ok (run get_partition isoformat c s).
Proof.
  intros Hinv. destruct c; cbn [run]; try done.
  - destruct (seen_token idempotency_token s) as [pid|] eqn:Hseen.
    + destruct (dict_get pid (portfolios s)) as [p|] eqn:Hp.
      * by erewrite create_portfolio_seen.
      * by erewrite create_portfolio_stale.
    + rewrite create_portfolio_unseen by done.
      by apply create_fresh_access_lists_ok.
  - rewrite delete_portfolio_state. intros pid l; simpl.
    intros [Hne Hl]%lookup_delete_Some. by apply (Hinv pid).
  - destruct (create_portfolio_share_state pid account organization_node
                share_tag_options share_principals s)
      as [->|(a & l & Ha & _ & Hl & ->)]; [done|].
    intros pid' l'; simpl.
    destruct (decide (pid = pid')) as [->|Hne];
      [|rewrite lookup_insert_ne by done; apply Hinv].
    rewrite lookup_insert_eq. intros [= <-].
    assert (NoDup l ∧ "" ∉ l) as [Hnd Hemp].
    { subst l. destruct (portfolio_access s !! pid') as [l0|] eqn:Hl0; simpl.
      - by apply (Hinv pid').
      - split; [constructor|set_solver]. }
    case_bool_decide as Hin; [done|]. split.
    + apply NoDup_app. split_and!; [done| |apply NoDup_singleton].
      intros x Hx ->%list_elem_of_singleton. done.
    + rewrite elem_of_app, list_elem_of_singleton. naive_solver.
  - destruct (delete_portfolio_share_state pid account organization_node s)
      as [->|(a & l & _ & _ & Hl & _ & ->)]; [done|].
    intros pid' l'; simpl.
    destruct (decide (pid = pid')) as [->|Hne];
      [|rewrite lookup_insert_ne by done; apply Hinv].
    rewrite lookup_insert_eq. intros [= <-].
    destruct (Hinv _ _ Hl) as [Hnd Hemp]. split.
    + by apply list_remove_NoDup.
    + intros Hin. by apply Hemp, (list_remove_subset a).
Qed.

Lemma reachable_access_lists_ok s :
  reachable get_partition isoformat s → access_lists_ok s.
Proof.
  induction 1 as [region account|c s _ IH].
  - intros pid l. simpl. by rewrite lookup_empty.
  - by apply run_access_lists_ok.
Qed.

(** C9. In every state reachable from the empty registry by any sequence
    of [create_portfolio], [delete_portfolio], [create_portfolio_share],
    [delete_portfolio_share], [list_portfolio_access] and [list_portfolios]
    calls, every portfolio id present in [portfolios] has an entry
    (possibly the empty list) in [portfolio_access]. *)
Theorem reachable_access_covers s :
  reachable get_partition isoformat s →
  ∀ pid, dict_in pid (portfolios s) = true →
         is_Some (portfolio_access s !! pid).
Proof.
  induction 1 as [region account|c s _ IH].
  - intros pid. simpl. by rewrite (proj2 (dict_in_false pid [])).
  - by apply run_access_covers.
Qed.

(** C3. For every registry state and every portfolio id that is not a key
    of [portfolios], [create_portfolio_share] with that id, whatever the
    account id, the organization node and the flags, returns [None] and
    leaves the whole registry as it was. *)
Theorem create_portfolio_share_unknown_id s pid account node tg pr :
  dict_get pid (portfolios s) = None →
  create_portfolio_share pid account node tg pr s = (None, s).
Proof.
  intros Habs. apply share_of_unknown_portfolio. by apply dict_in_false.
Qed.

Lemma to_dict_Id p :
  to_dict get_partition isoformat p !! "Id" = Some (portfolio_id p).
Proof.
  unfold to_dict. rewrite !lookup_insert_ne by done. apply lookup_insert_eq.
Qed.

Lemma to_dict_Description p :
  to_dict get_partition isoformat p !! "Description" = Some (description p).
Proof.
  unfold to_dict. rewrite !lookup_insert_ne by done. apply lookup_insert_eq.
Qed.

Lemma create_fresh_records display descr provider tgs t uuid4 now s :
  t ≠ "" →
  idempotency_tokens
    (create_fresh get_partition isoformat
       display descr provider tgs (Some t) uuid4 now s).2 !! t = Some uuid4.
Proof.
  intros Ht. unfold create_fresh.
  rewrite truthy_str_nonempty by done. simpl. apply lookup_insert_eq.
Qed.

Lemma create_fresh_stored display descr provider tgs token uuid4 now s :
  ∃ p, dict_get uuid4 (portfolios (create_fresh get_partition isoformat
                 display descr provider tgs token uuid4 now s).2) = Some p ∧
       (create_fresh get_partition isoformat
          display descr provider tgs token uuid4 now s).1
       = (to_dict get_partition isoformat p, tags p) ∧
       portfolio_id p = uuid4 ∧
       description p = default "" (truthy_str descr) ∧
       tags p = default [] (truthy_list tgs).
Proof.
  unfold create_fresh; simpl. eexists.
  split; [destruct (truthy_str token); simpl; apply dict_get_set_eq|done].
Qed.

(** C1 (amended). For every registry state and every non-empty idempotency
    token [t] that is either not recorded yet or recorded for a portfolio
    still present, two [create_portfolio] calls with token [t], whatever
    their other inputs, return the same summary (so the same portfolio id)
    and the same tags, and the second call leaves the registry, hence the
    portfolios map, as the first call left it. *)
Theorem create_portfolio_idempotent s t
    display1 descr1 provider1 tgs1 uuid1 now1
    display2 descr2 provider2 tgs2 uuid2 now2 :
  t ≠ "" →
  (idempotency_tokens s !! t = None ∨
   ∃ pid, idempotency_tokens s !! t = Some pid ∧
          dict_in pid (portfolios s) = true) →
  ∃ r s1 pid,
    create_portfolio get_partition isoformat
      display1 descr1 provider1 tgs1 (Some t) uuid1 now1 s = Returns r s1 ∧
    create_portfolio get_partition isoformat
      display2 descr2 provider2 tgs2 (Some t) uuid2 now2 s1 = Returns r s1 ∧
    r.1 !! "Id" = Some pid.
Proof.
  intros Ht [Hnew|(pid & Hrec & Hlive)].
  - destruct (create_fresh_stored display1 descr1 provider1 tgs1 (Some t)
                uuid1 now1 s) as (p & Hp & Hr & Hid & _).
    pose proof (create_fresh_records display1 descr1 provider1 tgs1 t
                  uuid1 now1 s Ht) as Htok.
    eexists _, _, uuid1. split_and!.
    + apply create_portfolio_unseen. unfold seen_token.
      by rewrite truthy_str_nonempty.
    + rewrite Hr. eapply create_portfolio_seen; [|exact Hp].
      unfold seen_token. by rewrite truthy_str_nonempty.
    + rewrite Hr. simpl. by rewrite to_dict_Id, Hid.
  - apply dict_in_true in Hlive as [p Hp].
    assert (seen_token (Some t) s = Some pid) as Hseen.
    { unfold seen_token. by rewrite truthy_str_nonempty. }
    exists (to_dict get_partition isoformat p, tags p), s, (portfolio_id p).
    split_and!.
    + by eapply create_portfolio_seen.
    + by eapply create_portfolio_seen.
    + apply to_dict_Id.
Qed.

(** C10. When [create_portfolio] is called with a fresh or absent
    idempotency token, a [None] description is stored and returned as the
    empty string, and [None] tags are stored and returned as the empty
    list. *)
Theorem create_portfolio_defaults s display descr provider tgs token uuid4 now :
  (∀ t, token = Some t → idempotency_tokens s !! t = None) →
  ∃ summary tgs' s' p,
    create_portfolio get_partition isoformat
      display descr provider tgs token uuid4 now s
    = Returns (summary, tgs') s' ∧
    dict_get uuid4 (portfolios s') = Some p ∧
    (descr = None → summary !! "Description" = Some "" ∧ description p = "") ∧
    (tgs = None → tgs' = [] ∧ tags p = []).
Proof.
  intros Hfresh.
  assert (seen_token token s = None) as Hseen.
  { unfold seen_token. destruct (truthy_str token) as [t|] eqn:Ht; [|done].
    apply truthy_str_Some in Ht as [-> _]. by apply Hfresh. }
  destruct (create_fresh_stored display descr provider tgs token
              uuid4 now s) as (p & Hp & Hr & _ & Hd & Htg).
  eexists (to_dict get_partition isoformat p), (tags p), _, p. split_and!.
  - rewrite create_portfolio_unseen by done. by rewrite Hr.
  - done.
  - intros ->. rewrite to_dict_Description. by rewrite Hd.
  - intros ->. by rewrite Htg.
Qed.

(** C4 (amended). For every live portfolio of a reachable registry and
    every non-empty account id [a], two successive [create_portfolio_share]
    calls with [account_id = a] leave exactly one occurrence of [a] in the
    portfolio's access list, and both calls return [None]. *)
Theorem create_portfolio_share_account_twice s pid a
    node1 tg1 pr1 node2 tg2 pr2 :
  reachable get_partition isoformat s →
  dict_in pid (portfolios s) = true →
  a ≠ "" →
  let c1 := create_portfolio_share pid (Some a) node1 tg1 pr1 s in
  let c2 := create_portfolio_share pid (Some a) node2 tg2 pr2 c1.2 in
  c1.1 = None ∧ c2.1 = None ∧
  ∃ l, portfolio_access c2.2 !! pid = Some l ∧ occurrences a l = 1.
Proof.
  intros Hreach Hlive Ha. cbv zeta.
  rewrite (create_portfolio_share_account pid a node1) by done.
  cbn [fst snd]. rewrite create_portfolio_share_account by done.
  split_and!; [done..|]. cbn [fst snd].
  set (l0 := default [] (portfolio_access s !! pid)).
  set (l1 := if bool_decide (a ∈ l0) then l0 else l0 ++ [a]).
  assert (NoDup l0) as Hnd0.
  { subst l0. destruct (portfolio_access s !! pid) as [l|] eqn:Hl; simpl.
    - by apply (reachable_access_lists_ok _ Hreach pid).
    - constructor. }
  assert (a ∈ l1 ∧ NoDup l1) as [Hin1 Hnd1].
  { subst l1. case_bool_decide as Hin; [done|]. split; [set_solver|].
    apply NoDup_app. split_and!; [done| |apply NoDup_singleton].
    intros x Hx ->%list_elem_of_singleton. done. }
  exists l1. split.
  - simpl. rewrite !lookup_insert_eq. simpl.
    by rewrite bool_decide_eq_true_2.
  - by apply occurrences_NoDup.
Qed.

(** C5. For every live portfolio id [p], [create_portfolio_share] with no
    account id and an organization node of type [t] and value [v] returns
    the token [share-p-t-v], followed by [-tags] exactly when
    [share_tag_options] is set and then by [-principals] exactly when
    [share_principals] is set: with both flags the token ends in
    [-tags-principals], with neither it has no suffix. The registry is
    unchanged. *)
Theorem create_portfolio_share_token s p (node : gmap string string) t v
    (tg pr : bool) :
  dict_in p (portfolios s) = true →
  node !! "Type" = Some t →
  node !! "Value" = Some v →
  let base := "share-" +:+ p +:+ "-" +:+ t +:+ "-" +:+ v in
  let suffix :=
    (if tg then "-tags" else "") +:+ (if pr then "-principals" else "") in
  create_portfolio_share p None (Some node) tg pr s
  = (Some (base +:+ suffix), s) ∧
  (tg = true → pr = true → suffix = "-tags-principals") ∧
  (tg = false → pr = false → base +:+ suffix = base).
Proof.
  intros Hlive Ht Hv. cbv zeta. split_and!.
  - unfold create_portfolio_share. rewrite Hlive. cbn [negb truthy_str].
    assert (truthy_dict (Some node) = Some node) as ->.
    { apply truthy_dict_Some. split; [done|]. intros ->.
      by rewrite lookup_empty in Ht. }
    unfold get_or_empty. rewrite Ht, Hv. cbn [default]. do 2 f_equal.
    unfold id.
    by destruct tg, pr; rewrite ?append_assoc, ?append_nil_l, ?append_nil_r.
  - by intros -> ->.
  - intros -> ->. by rewrite append_nil_l, append_nil_r.
Qed.

Lemma delete_portfolio_share_access pid a node s l :
  portfolio_access s !! pid = Some l →
  portfolio_access (delete_portfolio_share pid (Some a) node s).2 !! pid
  = Some (if decide (a = "") then l else list_remove a l).
Proof.
  intros Hl. unfold delete_portfolio_share; cbn [snd truthy_str].
  destruct (decide (a = "")) as [->|Ha]; [done|]. rewrite Hl.
  case_bool_decide as Hin; simpl.
  - by rewrite lookup_insert_eq.
  - by rewrite list_remove_absent.
Qed.

(** C6 (amended). For every registry state, [delete_portfolio_share]
    returns a share token exactly when an organization node is given and
    is not the empty dictionary, whether or not the portfolio id exists and
    whether or not an account id was removed; and in a reachable registry,
    when an account id is given, it is no longer in the portfolio's access
    list afterwards, the other account ids staying. *)
Theorem delete_portfolio_share_token_and_removal s pid account node :
  (is_Some ((delete_portfolio_share pid account node s).1) ↔
   ∃ m, node = Some m ∧ m ≠ ∅) ∧
  (reachable get_partition isoformat s →
   ∀ a l, account = Some a → portfolio_access s !! pid = Some l →
     ∃ l', portfolio_access (delete_portfolio_share pid account node s).2
             !! pid = Some l' ∧
           (a ∉ l') ∧ (∀ b, b ≠ a → b ∈ l' ↔ b ∈ l)).
Proof.
  split.
  - unfold delete_portfolio_share; cbn [fst].
    destruct (truthy_dict node) as [m|] eqn:Hm.
    + apply truthy_dict_Some in Hm as [-> Hne]. split; [eauto|done].
    + split; [by intros [? ?]|]. intros (m & -> & Hne).
      assert (truthy_dict (Some m) = Some m) as Hm'.
      { by apply truthy_dict_Some. }
      congruence.
  - intros Hreach a l -> Hl.
    destruct (reachable_access_lists_ok _ Hreach _ _ Hl) as [Hnd Hemp].
    rewrite (delete_portfolio_share_access _ _ _ _ _ Hl).
    eexists. split; [done|]. destruct (decide (a = "")) as [->|Ha].
    + done.
    + split; [by apply list_remove_gone|].
      intros b Hb. split; [apply list_remove_subset|].
      by apply list_remove_other.
Qed.

End operations.

(** ** Deletion and listing *)

(** C7. For every registry state and every id, [delete_portfolio] removes
    the portfolio entry and the access-list entry of that id, keeps every
    other entry and the idempotency tokens, changes nothing when the id is
    absent, and a second [delete_portfolio] with the same id gives the
    state the first one gave. *)
Theorem delete_portfolio_idempotent (s : ServiceCatalogBackend) (id : string) :
  dict_get id (portfolios (delete_portfolio id s)) = None ∧
  portfolio_access (delete_portfolio id s) !! id = None ∧
  (∀ k, k ≠ id →
     dict_get k (portfolios (delete_portfolio id s))
     = dict_get k (portfolios s) ∧
     portfolio_access (delete_portfolio id s) !! k
     = portfolio_access s !! k) ∧
  idempotency_tokens (delete_portfolio id s) = idempotency_tokens s ∧
  (dict_get id (portfolios s) = None → portfolio_access s !! id = None →
   delete_portfolio id s = s) ∧
  delete_portfolio id (delete_portfolio id s) = delete_portfolio id s.
Proof.
  rewrite !delete_portfolio_state; simpl. split_and!.
  - apply dict_get_del_eq.
  - apply lookup_delete_eq.
  - intros k Hk. split.
    + by apply dict_get_del_ne.
    + by apply lookup_delete_ne.
  - done.
  - intros Hp Ha. rewrite dict_del_absent, delete_id by done.
    by destruct s.
  - f_equal.
    + apply delete_id, lookup_delete_eq.
    + apply dict_del_absent, dict_get_del_eq.
Qed.

Lemma paginate_page {A} cfg (results : list A) page_token page_size :
  (paginate cfg results page_token page_size).1
  = take (default (limit_default cfg) page_size)
         (drop (default 0 page_token) results).
Proof. reflexivity. Qed.

(** C8. For every portfolio, [list_portfolio_access] returns a page of the
    portfolio's access list in the order the list holds the account ids,
    which is the order they were granted in since a new grant goes last; a
    page has at most [page_size] records, at most 20 when no [page_size]
    is given, and a next token is returned exactly when records remain.
    After granting access to ["111111111111"] and then ["222222222222"],
    the listing returns both in that order, and one per page with
    [page_size = 1]. *)
Theorem list_portfolio_access_pages (s : ServiceCatalogBackend) (pid : string)
    (page_token page_size : option nat) :
  let records :=
    (λ a, {[ "account_id" := a ]} : gmap string string)
      <$> default [] (portfolio_access s !! pid) in
  let limit := default 20 page_size in
  let start := default 0 page_token in
  let listed := list_portfolio_access pid page_token page_size s in
  (listed.1) = take limit (drop start records) ∧
  (length (listed.1) ≤ limit)%nat ∧
  (is_Some (listed.2) ↔ (limit < length (drop start records))%nat) ∧
  (∀ a l node tg pr,
     a ≠ "" → dict_in pid (portfolios s) = true →
     portfolio_access s !! pid = Some l → a ∉ l →
     portfolio_access (create_portfolio_share pid (Some a) node tg pr s).2
       !! pid = Some (l ++ [a])) ∧
  list_portfolio_access uuid_a None None two_grants
  = ([ {[ "account_id" := "111111111111" ]};
       {[ "account_id" := "222222222222" ]} ], None) ∧
  list_portfolio_access uuid_a None (Some 1) two_grants
  = ([ {[ "account_id" := "111111111111" ]} ], Some 1) ∧
  list_portfolio_access uuid_a (Some 1) (Some 1) two_grants
  = ([ {[ "account_id" := "222222222222" ]} ], None).
Proof.
  cbv zeta. unfold list_portfolio_access. split_and!.
  - apply paginate_page.
  - rewrite paginate_page. simpl. rewrite length_take. lia.
  - unfold paginate, list_portfolio_access_body; simpl.
    case_decide; split; try done.
  - intros a l node tg pr Ha Hlive Hl Hnot.
    rewrite create_portfolio_share_account by done. simpl.
    rewrite lookup_insert_eq, Hl. simpl.
    by rewrite bool_decide_eq_false_2.
  - by vm_compute.
  - by vm_compute.
  - by vm_compute.
Qed.

(** ** The properties on the concrete registry *)

Lemma reachable_run_all gp iso cs s :
  reachable gp iso s → reachable gp iso (run_all gp iso cs s).
Proof.
  revert s. induction cs as [|c cs IH]; intros s Hs; [done|].
  apply IH. by constructor.
Qed.

Lemma reachable_one_portfolio :
  reachable aws_partition clock_isoformat one_portfolio.
Proof. apply reachable_step, reachable_init. Qed.

Lemma reachable_two_grants :
  reachable aws_partition clock_isoformat two_grants.
Proof. apply reachable_run_all, reachable_one_portfolio. Qed.

(** C1, as stated, fails for the empty token: [if idempotency_token] treats
    it as no token, so two calls create two portfolios with different ids
    and the second call adds an entry. *)
Lemma create_portfolio_empty_token_creates_twice :
  ∃ r1 s1 r2 s2,
    create_portfolio aws_partition clock_isoformat
      "Dev tools" None "platform" None (Some "") uuid_a 1 empty_backend
    = Returns r1 s1 ∧
    create_portfolio aws_partition clock_isoformat
      "Dev tools" None "platform" None (Some "") uuid_b 2 s1
    = Returns r2 s2 ∧
    r1.1 !! "Id" = Some uuid_a ∧
    r2.1 !! "Id" = Some uuid_b ∧
    uuid_a ≠ uuid_b ∧
    length (portfolios s1) = 1 ∧
    length (portfolios s2) = 2.
Proof.
  eexists _, _, _, _.
  split; [vm_compute; reflexivity|].
  split; [vm_compute; reflexivity|].
  by vm_compute.
Qed.

Lemma create_portfolio_idempotent_witness :
  ∃ r s1 pid,
    create_portfolio aws_partition clock_isoformat
      "Dev tools" (Some "Team tooling") "platform" None
      (Some "retry-1") uuid_a 1 empty_backend = Returns r s1 ∧
    create_portfolio aws_partition clock_isoformat
      "Other name" None "someone else" (Some [org_node])
      (Some "retry-1") uuid_b 2 s1 = Returns r s1 ∧
    r.1 !! "Id" = Some pid.
Proof.
  apply (create_portfolio_idempotent aws_partition clock_isoformat
           empty_backend "retry-1").
  - vm_compute. discriminate.
  - left. vm_compute. reflexivity.
Defined.

(** C2. After [create_portfolio] with token ["retry-1"] and
    [delete_portfolio] of the portfolio it created, the token is still
    recorded, and [create_portfolio] with that token raises [KeyError]
    instead of returning a summary and tags. *)
Theorem create_portfolio_stale_token_raises :
  idempotency_tokens after_delete !! "retry-1" = Some uuid_a ∧
  dict_get uuid_a (portfolios after_delete) = None ∧
  create_portfolio aws_partition clock_isoformat
    "Dev tools" (Some "Team tooling") "platform" None
    (Some "retry-1") uuid_b 3 after_delete
  = Raises (KeyError uuid_a).
Proof. by vm_compute. Qed.

Lemma create_portfolio_share_unknown_id_witness :
  dict_get uuid_b (portfolios one_portfolio) = None ∧
  create_portfolio_share uuid_b (Some "111111111111") (Some org_node)
    true true one_portfolio = (None, one_portfolio).
Proof.
  split; [vm_compute; reflexivity|].
  apply create_portfolio_share_unknown_id. vm_compute. reflexivity.
Defined.

(** C4, as stated, fails for the empty account id: [if account_id] treats
    it as no account id, so nothing is appended, and with an organization
    node the call returns a token. *)
Lemma create_portfolio_share_empty_account_skipped :
  ∃ l,
    portfolio_access
      (create_portfolio_share uuid_a (Some "") None false false
         (create_portfolio_share uuid_a (Some "") None false false
            one_portfolio).2).2 !! uuid_a = Some l ∧
    occurrences "" l = 0 ∧
    (create_portfolio_share uuid_a (Some "") (Some org_node)
       false false one_portfolio).1
    = Some ("share-" +:+ uuid_a +:+ "-ORGANIZATION-o-exampleorg").
Proof. exists []. by vm_compute. Qed.

Lemma create_portfolio_share_account_twice_witness :
  (create_portfolio_share uuid_a (Some "111111111111") None false false
     one_portfolio).1 = None ∧
  (create_portfolio_share uuid_a (Some "111111111111") (Some org_node)
     true false
     (create_portfolio_share uuid_a (Some "111111111111") None false false
        one_portfolio).2).1 = None ∧
  ∃ l,
    portfolio_access
      (create_portfolio_share uuid_a (Some "111111111111") (Some org_node)
         true false
         (create_portfolio_share uuid_a (Some "111111111111") None
            false false one_portfolio).2).2 !! uuid_a = Some l ∧
    occurrences "111111111111" l = 1.
Proof.
  apply (create_portfolio_share_account_twice aws_partition clock_isoformat
           one_portfolio uuid_a "111111111111").
  - exact reachable_one_portfolio.
  - vm_compute. reflexivity.
  - vm_compute. discriminate.
Defined.

Lemma create_portfolio_share_token_witness :
  create_portfolio_share uuid_a None (Some org_node) true true one_portfolio
  = (Some ("share-" +:+ uuid_a +:+ "-" +:+ "ORGANIZATION" +:+ "-" +:+
           "o-exampleorg" +:+ "-tags-principals"),
     one_portfolio).
Proof.
  apply (create_portfolio_share_token one_portfolio uuid_a org_node
           "ORGANIZATION" "o-exampleorg" true true).
  - vm_compute. reflexivity.
  - vm_compute. reflexivity.
  - vm_compute. reflexivity.
Defined.

(** C6, as stated, fails for an organization node that is the empty
    dictionary: it is given, and [if organization_node] is false, so no
    token is returned. *)
Lemma delete_portfolio_share_empty_node_no_token :
  delete_portfolio_share uuid_a None (Some ∅) one_portfolio
  = (None, one_portfolio).
Proof. by vm_compute. Qed.

Lemma delete_portfolio_share_token_and_removal_witness :
  ∃ l',
    portfolio_access
      (delete_portfolio_share uuid_a (Some "111111111111") (Some org_node)
         two_grants).2 !! uuid_a = Some l' ∧
    ("111111111111" ∉ l') ∧
    (∀ b, b ≠ "111111111111" →
          b ∈ l' ↔ b ∈ ["111111111111"; "222222222222"]).
Proof.
  apply (proj2 (delete_portfolio_share_token_and_removal
                  aws_partition clock_isoformat two_grants uuid_a
                  (Some "111111111111") (Some org_node))).
  - exact reachable_two_grants.
  - reflexivity.
  - vm_compute. reflexivity.
Defined.

Lemma delete_portfolio_idempotent_witness :
  delete_portfolio uuid_b one_portfolio = one_portfolio.
Proof.
  apply (proj1 (proj2 (proj2 (proj2 (proj2
           (delete_portfolio_idempotent one_portfolio uuid_b)))))).
  - vm_compute. reflexivity.
  - vm_compute. reflexivity.
Defined.

Lemma list_portfolio_access_pages_witness :
  portfolio_access
    (create_portfolio_share uuid_a (Some "333333333333") None false false
       two_grants).2 !! uuid_a
  = Some (["111111111111"; "222222222222"] ++ ["333333333333"]).
Proof.
  apply (proj1 (proj2 (proj2 (proj2
           (list_portfolio_access_pages two_grants uuid_a None None))))).
  - vm_compute. discriminate.
  - vm_compute. reflexivity.
  - vm_compute. reflexivity.
  - vm_compute. intros H. by repeat (inversion_clear H as [|? ? ? H']; rename H' into H).
Defined.

Lemma reachable_access_covers_witness :
  reachable aws_partition clock_isoformat two_grants ∧
  dict_in uuid_a (portfolios two_grants) = true ∧
  is_Some (portfolio_access two_grants !! uuid_a).
Proof.
  split; [exact reachable_two_grants|].
  split; [vm_compute; reflexivity|].
  apply (reachable_access_covers aws_partition clock_isoformat two_grants).
  - exact reachable_two_grants.
  - vm_compute. reflexivity.
Defined.

Lemma create_portfolio_defaults_witness :
  ∃ summary tgs' s' p,
    create_portfolio aws_partition clock_isoformat
      "Dev tools" None "platform" None (Some "retry-2") uuid_b 2
      one_portfolio
    = Returns (summary, tgs') s' ∧
    dict_get uuid_b (portfolios s') = Some p ∧
    (summary !! "Description" = Some "" ∧ description p = "") ∧
    (tgs' = [] ∧ tags p = []).
Proof.
  destruct (create_portfolio_defaults aws_partition clock_isoformat
              one_portfolio "Dev tools" None "platform" None
              (Some "retry-2") uuid_b 2)
    as (summary & tgs' & s' & p & Hret & Hp & Hdescr & Htags).
  - intros t [= <-]. vm_compute. reflexivity.
  - exists summary, tgs', s', p.
    exact (conj Hret (conj Hp (conj (Hdescr eq_refl) (Htags eq_refl)))).
Defined.

(** ** More on ordered dictionaries *)

Section ordered_dict_more.
Context {V : Type}.
Implicit Types (d : list (string * V)) (k : string) (v : V).

Lemma dict_get_elem_of k v d : dict_get k d = Some v → (k, v) ∈ d.
Proof.
  induction d as [|[k' v'] d IH]; simpl; [done|].
  destruct (decide (k = k')) as [->|Hne].
  - intros [= ->]. apply list_elem_of_here.
  - intros H. apply list_elem_of_further. by apply IH.
Qed.

Lemma dict_get_None_keys k d : dict_get k d = None ↔ k ∉ dict_keys d.
Proof.
  unfold dict_keys. induction d as [|[k' v'] d IH]; simpl.
  - split; [intros _; apply not_elem_of_nil|done].
  - rewrite not_elem_of_cons. destruct (decide (k = k')) as [->|Hne].
    + split; [done|]. by intros [? _].
    + rewrite IH. naive_solver.
Qed.

Lemma dict_set_absent k v d :
  dict_get k d = None → dict_set k v d = d ++ [(k, v)].
Proof.
  induction d as [|[k' v'] d IH]; simpl; [done|].
  destruct (decide (k = k')); [done|]. intros H. by rewrite IH.
Qed.

Lemma dict_set_keys_present k v d :
  is_Some (dict_get k d) → dict_keys (dict_set k v d) = dict_keys d.
Proof.
  unfold dict_keys. induction d as [|[k' v'] d IH]; simpl.
  - by intros [? ?].
  - destruct (decide (k = k')) as [->|Hne]; simpl; [done|].
    intros H. f_equal. by apply IH.
Qed.

Lemma dict_set_keys_NoDup k v d :
  NoDup (dict_keys d) → NoDup (dict_keys (dict_set k v d)).
Proof.
  intros Hnd. destruct (dict_get k d) as [v0|] eqn:Hk.
  - by rewrite dict_set_keys_present.
  - rewrite dict_set_absent by done. unfold dict_keys in *.
    rewrite fmap_app. simpl. apply NoDup_app. split_and!; [done| |].
    + intros x Hx ->%list_elem_of_singleton.
      by apply dict_get_None_keys in Hk.
    + apply NoDup_singleton.
Qed.

Lemma dict_del_filter k d :
  dict_del k d = filter (λ kv, kv.1 ≠ k) d.
Proof.
  induction d as [|[k' v'] d IH]; simpl; [done|].
  rewrite filter_cons. simpl. destruct (decide (k = k')) as [->|Hne].
  - by rewrite decide_False by (by intros ?).
  - rewrite decide_True by done. by rewrite IH.
Qed.

Lemma dict_del_keys_NoDup k d :
  NoDup (dict_keys d) → NoDup (dict_keys (dict_del k d)).
Proof.
  unfold dict_keys. induction d as [|[k' v'] d IH]; simpl; [done|].
  intros [Hk Hd]%NoDup_cons. destruct (decide (k = k')); [by apply IH|].
  simpl. apply NoDup_cons. split; [|by apply IH].
  intros Hin. apply Hk. rewrite dict_del_filter in Hin.
  apply list_elem_of_fmap in Hin as (kv & -> & Hkv).
  apply list_elem_of_fmap. exists kv. split; [done|].
  by apply list_elem_of_filter in Hkv as [_ ?].
Qed.

Lemma dict_del_set_absent k v d :
  dict_get k d = None → dict_del k (dict_set k v d) = d.
Proof.
  induction d as [|[k' v'] d IH]; simpl.
  - by rewrite decide_True.
  - destruct (decide (k = k')) as [->|Hne]; [done|]. simpl.
    rewrite decide_False by done. intros H. by rewrite IH.
Qed.

Lemma dict_set_Forall (P : string * V → Prop) k v d :
  Forall P d → P (k, v) → Forall P (dict_set k v d).
Proof.
  intros Hd Hkv. induction Hd as [|[k' v'] d Hx Hd IH]; simpl.
  - by constructor.
  - destruct (decide (k = k')); by constructor.
Qed.

Lemma dict_del_Forall (P : string * V → Prop) k d :
  Forall P d → Forall P (dict_del k d).
Proof.
  intros Hd. induction Hd as [|[k' v'] d Hx Hd IH]; simpl; [done|].
  destruct (decide (k = k')); [done|]. by constructor.
Qed.
End ordered_dict_more.

Lemma list_remove_snoc a l : a ∉ l → list_remove a (l ++ [a]) = l.
Proof.
  induction l as [|b l IH]; simpl.
  - by rewrite decide_True.
  - intros [Hne Hl]%not_elem_of_cons. rewrite decide_False by done.
    by rewrite IH.
Qed.

(** ** The state after a call, field by field *)

Section more_operations.
Context (get_partition : string → string) (isoformat : Z → string).
Implicit Types (s : ServiceCatalogBackend) (pid id a : string) (c : call).

Lemma create_fresh_spec display descr provider tgs token uuid4 now s :
  ∃ p,
    (portfolio_id p = uuid4 ∧ display_name p = display ∧
     description p = default "" (truthy_str descr) ∧
     provider_name p = provider ∧ created_time p = now ∧
     tags p = default [] (truthy_list tgs) ∧
     region_name p = backend_region_name s ∧
     account_id p = backend_account_id s) ∧
    create_fresh get_partition isoformat
      display descr provider tgs token uuid4 now s
    = (to_dict get_partition isoformat p, tags p,
       {| backend_region_name := backend_region_name s;
          backend_account_id := backend_account_id s;
          portfolio_access := <[uuid4 := []]> (portfolio_access s);
          portfolios := dict_set uuid4 p (portfolios s);
          idempotency_tokens :=
            match truthy_str token with
            | Some t => <[t := uuid4]> (idempotency_tokens s)
            | None => idempotency_tokens s
            end |}).
Proof.
  exists {| portfolio_id := uuid4;
            display_name := display;
            description := default "" (truthy_str descr);
            provider_name := provider;
            created_time := now;
            tags := default [] (truthy_list tgs);
            region_name := backend_region_name s;
            account_id := backend_account_id s |}.
  split; [done|]. unfold create_fresh. by destruct (truthy_str token).
Qed.

Lemma seen_token_None token s :
  (∀ t, token = Some t → idempotency_tokens s !! t = None) →
  seen_token token s = None.
Proof.
  intros Hfresh. unfold seen_token.
  destruct (truthy_str token) as [t|] eqn:Ht; [|done].
  apply truthy_str_Some in Ht as [-> _]. by apply Hfresh.
Qed.

Lemma run_create_cases display descr provider tgs token uuid4 now s :
  let c := CreatePortfolio display descr provider tgs token uuid4 now in
  run get_partition isoformat c s = s ∨
  (seen_token token s = None ∧
   run get_partition isoformat c s
   = (create_fresh get_partition isoformat
        display descr provider tgs token uuid4 now s).2).
Proof.
  cbv zeta. cbn [run].
  destruct (seen_token token s) as [pid|] eqn:Hseen.
  - left. destruct (dict_get pid (portfolios s)) as [p|] eqn:Hp.
    + by erewrite create_portfolio_seen.
    + by erewrite create_portfolio_stale.
  - right. split; [done|]. by rewrite create_portfolio_unseen.
Qed.

Lemma run_scope c s :
  backend_region_name (run get_partition isoformat c s)
  = backend_region_name s ∧
  backend_account_id (run get_partition isoformat c s)
  = backend_account_id s.
Proof.
  destruct c; cbn [run]; try done.
  - destruct (run_create_cases display descr provider tgs idempotency_token
                uuid4 now s) as [Heq|[_ Heq]];
      cbn [run] in Heq; rewrite Heq; [done|].
    destruct (create_fresh_spec display descr provider tgs idempotency_token
                uuid4 now s) as (p & _ & ->). done.
  - by rewrite delete_portfolio_state.
  - by destruct (create_portfolio_share_state pid account organization_node
                   share_tag_options share_principals s)
      as [->|(a & l & _ & _ & _ & ->)].
  - by destruct (delete_portfolio_share_state pid account organization_node s)
      as [->|(a & l & _ & _ & _ & _ & ->)].
Qed.

Lemma run_ids_match c s :
  ids_match s → ids_match (run get_partition isoformat c s).
Proof.
  intros Hinv. destruct c; cbn [run]; try done.
  - destruct (run_create_cases display descr provider tgs idempotency_token
                uuid4 now s) as [Heq|[_ Heq]];
      cbn [run] in Heq; rewrite Heq; [done|].
    destruct (create_fresh_spec display descr provider tgs idempotency_token
                uuid4 now s) as (p & Hp & ->).
    unfold ids_match; simpl. apply dict_set_Forall; [done|]. simpl.
    naive_solver.
  - rewrite delete_portfolio_state. unfold ids_match; simpl.
    by apply dict_del_Forall.
  - by destruct (create_portfolio_share_state pid account organization_node
                   share_tag_options share_principals s)
      as [->|(a & l & _ & _ & _ & ->)].
  - by destruct (delete_portfolio_share_state pid account organization_node s)
      as [->|(a & l & _ & _ & _ & _ & ->)].
Qed.

Lemma run_keys_NoDup c s :
  NoDup (dict_keys (portfolios s)) →
  NoDup (dict_keys (portfolios (run get_partition isoformat c s))).
Proof.
  intros Hinv. destruct c; cbn [run]; try done.
  - destruct (run_create_cases display descr provider tgs idempotency_token
                uuid4 now s) as [Heq|[_ Heq]];
      cbn [run] in Heq; rewrite Heq; [done|].
    destruct (create_fresh_spec display descr provider tgs idempotency_token
                uuid4 now s) as (p & Hp & ->).
    simpl. by apply dict_set_keys_NoDup.
  - rewrite delete_portfolio_state. simpl. by apply dict_del_keys_NoDup.
  - by destruct (create_portfolio_share_state pid account organization_node
                   share_tag_options share_principals s)
      as [->|(a & l & _ & _ & _ & ->)].
  - by destruct (delete_portfolio_share_state pid account organization_node s)
      as [->|(a & l & _ & _ & _ & _ & ->)].
Qed.

Lemma run_access_only_live c s :
  access_only_live s → access_only_live (run get_partition isoformat c s).
Proof.
  intros Hinv. destruct c; cbn [run]; try done.
  - destruct (run_create_cases display descr provider tgs idempotency_token
                uuid4 now s) as [Heq|[_ Heq]];
      cbn [run] in Heq; rewrite Heq; [done|].
    destruct (create_fresh_spec display descr provider tgs idempotency_token
                uuid4 now s) as (p & Hp & ->).
    intros pid; simpl. rewrite dict_in_set.
    destruct (decide (uuid4 = pid)) as [->|Hne]; [by left|].
    rewrite lookup_insert_ne by done. intros H. right. by apply Hinv.
  - rewrite delete_portfolio_state. intros pid; simpl.
    rewrite dict_in_del. destruct (decide (id = pid)) as [->|Hne].
    + rewrite lookup_delete_eq. by intros [? ?].
    + rewrite lookup_delete_ne by done. intros H. split; [done|].
      by apply Hinv.
  - destruct (create_portfolio_share_state pid account organization_node
                share_tag_options share_principals s)
      as [->|(a & l & _ & Hlive & _ & ->)]; [done|].
    intros pid'; simpl. destruct (decide (pid = pid')) as [->|Hne]; [done|].
    rewrite lookup_insert_ne by done. apply Hinv.
  - destruct (delete_portfolio_share_state pid account organization_node s)
      as [->|(a & l & _ & _ & Hl & _ & ->)]; [done|].
    intros pid'; simpl. destruct (decide (pid = pid')) as [->|Hne].
    + intros _. apply Hinv. by rewrite Hl.
    + rewrite lookup_insert_ne by done. apply Hinv.
Qed.

Lemma run_tokens_live c s :
  is_delete c = false →
  tokens_live s → tokens_live (run get_partition isoformat c s).
Proof.
  intros Hc Hinv. destruct c; cbn [run]; try done.
  - destruct (run_create_cases display descr provider tgs idempotency_token
                uuid4 now s) as [Heq|[_ Heq]];
      cbn [run] in Heq; rewrite Heq; [done|].
    destruct (create_fresh_spec display descr provider tgs idempotency_token
                uuid4 now s) as (p & Hp & ->).
    intros t pid; simpl. rewrite dict_in_set.
    destruct (truthy_str idempotency_token) as [t'|].
    + destruct (decide (t' = t)) as [->|Hne].
      * rewrite lookup_insert_eq. intros [= ->]. by left.
      * rewrite lookup_insert_ne by done. intros H. right.
        by apply (Hinv t).
    + intros H. right. by apply (Hinv t).
  - by destruct (create_portfolio_share_state pid account organization_node
                   share_tag_options share_principals s)
      as [->|(a & l & _ & _ & _ & ->)].
  - by destruct (delete_portfolio_share_state pid account organization_node s)
      as [->|(a & l & _ & _ & _ & _ & ->)].
Qed.

Lemma reachable_ids_match s :
  reachable get_partition isoformat s → ids_match s.
Proof.
  induction 1 as [region account|c s _ IH].
  - constructor.
  - by apply run_ids_match.
Qed.

Lemma reachable_keys_NoDup s :
  reachable get_partition isoformat s → NoDup (dict_keys (portfolios s)).
Proof.
  induction 1 as [region account|c s _ IH].
  - constructor.
  - by apply run_keys_NoDup.
Qed.

Lemma reachable_access_only_live s :
  reachable get_partition isoformat s → access_only_live s.
Proof.
  induction 1 as [region account|c s _ IH].
  - intros pid; simpl. rewrite lookup_empty. by intros [? ?].
  - by apply run_access_only_live.
Qed.

Lemma run_all_tokens_live cs s :
  forallb (λ c, negb (is_delete c)) cs = true →
  tokens_live s → tokens_live (run_all get_partition isoformat cs s).
Proof.
  revert s. induction cs as [|c cs IH]; intros s Hcs Hinv; [done|].
  simpl in Hcs. apply andb_true_iff in Hcs as [Hc Hcs].
  apply IH; [done|]. apply run_tokens_live; [|done].
  by apply negb_true_iff.
Qed.

End more_operations.

(** ** Further properties of the registry *)

Section further_properties.
Context (get_partition : string → string) (isoformat : Z → string).
Implicit Types (s : ServiceCatalogBackend) (pid id a : string) (c : call).

(** X1. [create_portfolio] raises exactly when the idempotency token is
    non-empty and recorded for a portfolio id that is no longer a key of
    [portfolios]; the exception is [KeyError] of that id. *)
Theorem create_portfolio_raises_iff
    display descr provider tgs token uuid4 now s e :
  create_portfolio get_partition isoformat
    display descr provider tgs token uuid4 now s = Raises e ↔
  ∃ t pid, token = Some t ∧ t ≠ "" ∧
           idempotency_tokens s !! t = Some pid ∧
           dict_get pid (portfolios s) = None ∧
           e = KeyError pid.
Proof.
  split.
  - destruct (seen_token token s) as [pid|] eqn:Hseen.
    + destruct (dict_get pid (portfolios s)) as [p|] eqn:Hp.
      * erewrite create_portfolio_seen by done. discriminate.
      * erewrite create_portfolio_stale by done. intros [= <-].
        unfold seen_token in Hseen.
        destruct (truthy_str token) as [t|] eqn:Ht; [|done].
        apply truthy_str_Some in Ht as [-> Hne]. by exists t, pid.
    + rewrite create_portfolio_unseen by done. discriminate.
  - intros (t & pid & -> & Hne & Htok & Hp & ->).
    apply create_portfolio_stale; [|done].
    unfold seen_token. by rewrite truthy_str_nonempty.
Qed.

(** X2. Starting from the empty registry, after any sequence of calls that
    contains no [delete_portfolio], [create_portfolio] returns a summary
    and tags, whatever its arguments: only a deletion can make it raise. *)
Theorem create_portfolio_returns_without_delete
    cs region account display descr provider tgs token uuid4 now :
  forallb (λ c, negb (is_delete c)) cs = true →
  ∃ r s',
    create_portfolio get_partition isoformat
      display descr provider tgs token uuid4 now
      (run_all get_partition isoformat cs (init region account))
    = Returns r s'.
Proof.
  intros Hcs.
  set (s := run_all get_partition isoformat cs (init region account)).
  assert (tokens_live s) as Hlive.
  { apply run_all_tokens_live; [done|]. intros t pid; simpl.
    by rewrite lookup_empty. }
  destruct (seen_token token s) as [pid|] eqn:Hseen.
  - unfold seen_token in Hseen.
    destruct (truthy_str token) as [t|] eqn:Ht; [|done].
    destruct (proj1 (dict_in_true _ _) (Hlive _ _ Hseen)) as [p Hp].
    eexists _, _. eapply create_portfolio_seen; [|exact Hp].
    unfold seen_token. by rewrite Ht.
  - eexists _, _. by apply create_portfolio_unseen.
Qed.

(** X3. In every reachable registry no access list holds an account id
    twice, and none holds the empty string. *)
Theorem reachable_access_lists_distinct s pid (l : list string) :
  reachable get_partition isoformat s →
  portfolio_access s !! pid = Some l →
  NoDup l ∧ "" ∉ l.
Proof.
  intros Hreach Hl. by apply (reachable_access_lists_ok _ _ _ Hreach pid).
Qed.

(** X4. In every reachable registry an access list exists only for a live
    portfolio: [delete_portfolio] leaves no access list behind, and shares
    never create one for an unknown id. *)
Theorem reachable_access_keys_live s pid :
  reachable get_partition isoformat s →
  is_Some (portfolio_access s !! pid) →
  is_Some (dict_get pid (portfolios s)).
Proof.
  intros Hreach Hacc. apply dict_in_true.
  by apply (reachable_access_only_live _ _ _ Hreach).
Qed.

(** X5. In every reachable registry the portfolio stored under a key has
    that key as its id and the backend's region and account, so its
    summary shows that id and an ARN built from the backend's own region
    and account. *)
Theorem reachable_portfolio_scope s k p :
  reachable get_partition isoformat s →
  dict_get k (portfolios s) = Some p →
  portfolio_id p = k ∧
  region_name p = backend_region_name s ∧
  account_id p = backend_account_id s ∧
  to_dict get_partition isoformat p !! "Id" = Some k ∧
  to_dict get_partition isoformat p !! "ARN"
  = Some ("arn:" +:+ get_partition (backend_region_name s) +:+ ":catalog:"
          +:+ backend_region_name s +:+ ":" +:+ backend_account_id s
          +:+ ":portfolio/" +:+ k).
Proof.
  intros Hreach Hp.
  pose proof (reachable_ids_match _ _ _ Hreach) as Hinv.
  unfold ids_match in Hinv. rewrite Forall_forall in Hinv.
  destruct (Hinv _ (dict_get_elem_of _ _ _ Hp)) as (Hid & Hreg & Hacc).
  simpl in Hid, Hreg, Hacc. split_and!; try done.
  - by rewrite to_dict_Id, Hid.
  - unfold to_dict. rewrite !lookup_insert_ne by done.
    rewrite lookup_insert_eq. unfold arn. by rewrite Hid, Hreg, Hacc.
Qed.

Lemma listed_ids_keys (d : list (string * Portfolio)) :
  Forall (λ kv : string * Portfolio, portfolio_id kv.2 = kv.1) d →
  listed_ids (to_dict get_partition isoformat <$> dict_values d)
  = Some <$> dict_keys d.
Proof.
  unfold listed_ids, dict_values, dict_keys.
  induction 1 as [|[k p] d Hk Hd IH]; [done|].
  simpl in Hk. rewrite !fmap_cons. simpl. rewrite to_dict_Id, Hk.
  f_equal. exact IH.
Qed.

Lemma ids_match_keys s :
  ids_match s →
  Forall (λ kv : string * Portfolio, portfolio_id kv.2 = kv.1) (portfolios s).
Proof.
  unfold ids_match. intros Hinv. eapply Forall_impl; [exact Hinv|].
  naive_solver.
Qed.

(** X6. In every reachable registry [list_portfolios] shows each live
    portfolio once: the [Id] entries of the listed summaries are the keys
    of [portfolios], in insertion order and without repetition. *)
Theorem list_portfolios_ids_distinct s :
  reachable get_partition isoformat s →
  listed_ids (list_portfolios get_partition isoformat s).1
  = Some <$> dict_keys (portfolios s) ∧
  NoDup (listed_ids (list_portfolios get_partition isoformat s).1).
Proof.
  intros Hreach.
  assert (listed_ids (list_portfolios get_partition isoformat s).1
          = Some <$> dict_keys (portfolios s)) as Heq.
  { apply listed_ids_keys, ids_match_keys.
    by apply (reachable_ids_match get_partition isoformat). }
  split; [done|]. rewrite Heq. apply NoDup_fmap_2; [apply _|].
  by apply (reachable_keys_NoDup get_partition isoformat).
Qed.

(** X7. When the generated id is not yet a key of [portfolios] and the
    token is fresh or absent, [create_portfolio] appends the summary it
    returns at the end of the [list_portfolios] listing. *)
Theorem list_portfolios_after_create
    s display descr provider tgs token uuid4 now :
  dict_get uuid4 (portfolios s) = None →
  (∀ t, token = Some t → idempotency_tokens s !! t = None) →
  ∃ summary tgs' s',
    create_portfolio get_partition isoformat
      display descr provider tgs token uuid4 now s
    = Returns (summary, tgs') s' ∧
    (list_portfolios get_partition isoformat s').1
    = (list_portfolios get_partition isoformat s).1 ++ [summary].
Proof.
  intros Hnew Hfresh.
  destruct (create_fresh_spec get_partition isoformat display descr provider
              tgs token uuid4 now s) as (p & _ & Hc).
  eexists _, _, _. split.
  - rewrite create_portfolio_unseen by by apply seen_token_None.
    rewrite Hc. reflexivity.
  - unfold list_portfolios, dict_values. simpl.
    rewrite dict_set_absent by done. by rewrite !fmap_app.
Qed.

(** X8. In every reachable registry, [delete_portfolio] removes from the
    [list_portfolios] listing exactly the summary whose [Id] is the deleted
    id and keeps the others in their order. *)
Theorem list_portfolios_after_delete s id :
  reachable get_partition isoformat s →
  (list_portfolios get_partition isoformat (delete_portfolio id s)).1
  = filter (λ d : gmap string string, d !! "Id" ≠ Some id)
           (list_portfolios get_partition isoformat s).1.
Proof.
  intros Hreach. rewrite delete_portfolio_state.
  unfold list_portfolios, dict_values. simpl.
  pose proof (ids_match_keys _ (reachable_ids_match _ _ _ Hreach)) as Hinv.
  induction Hinv as [|[k p] d Hk Hd IH]; [done|].
  simpl in Hk. simpl. rewrite filter_cons, to_dict_Id, Hk.
  destruct (decide (id = k)) as [->|Hne].
  - rewrite decide_False by (by intros ?). exact IH.
  - rewrite decide_True by congruence. simpl. f_equal. exact IH.
Qed.

(** X9. Granting a live portfolio to a non-empty account id that is not in
    its access list and then revoking that account id gives back the
    registry as it was. *)
Theorem share_then_unshare s pid a (l : list string) node1 tg pr node2 :
  dict_in pid (portfolios s) = true →
  a ≠ "" →
  portfolio_access s !! pid = Some l →
  a ∉ l →
  (delete_portfolio_share pid (Some a) node2
     (create_portfolio_share pid (Some a) node1 tg pr s).2).2 = s.
Proof.
  intros Hlive Ha Hl Hnot.
  rewrite create_portfolio_share_account by done. cbn [snd].
  rewrite Hl. cbn [default]. rewrite bool_decide_eq_false_2 by done.
  unfold delete_portfolio_share. cbn [snd].
  rewrite truthy_str_nonempty by done. simpl.
  rewrite lookup_insert_eq.
  rewrite bool_decide_eq_true_2 by (apply elem_of_app; right; by left).
  rewrite list_remove_snoc by done. destruct s as [r acc pa ps tk].
  unfold set_portfolio_access; simpl in *.
  by rewrite insert_insert_eq, insert_id.
Qed.

(** X10. In every reachable registry, creating a portfolio without a token
    (none, or the empty string) under an id not in use and then deleting
    that id gives back the registry as it was. *)
Theorem create_then_delete s display descr provider tgs token uuid4 now :
  reachable get_partition isoformat s →
  dict_get uuid4 (portfolios s) = None →
  token = None ∨ token = Some "" →
  ∃ r s',
    create_portfolio get_partition isoformat
      display descr provider tgs token uuid4 now s = Returns r s' ∧
    delete_portfolio uuid4 s' = s.
Proof.
  intros Hreach Hnew Htok.
  assert (truthy_str token = None) as Ht by (by destruct Htok as [->| ->]).
  assert (portfolio_access s !! uuid4 = None) as Hacc.
  { apply eq_None_not_Some. intros Hsome.
    apply (reachable_access_only_live _ _ _ Hreach), dict_in_true in Hsome.
    rewrite Hnew in Hsome. by destruct Hsome. }
  destruct (create_fresh_spec get_partition isoformat display descr provider
              tgs token uuid4 now s) as (p & _ & Hc).
  eexists _, _. split.
  - rewrite create_portfolio_unseen.
    + rewrite Hc. reflexivity.
    + unfold seen_token. by rewrite Ht.
  - rewrite delete_portfolio_state. simpl. rewrite Ht.
    rewrite dict_del_set_absent by done.
    rewrite delete_insert_id by done. by destruct s.
Qed.

(** X11. After [create_portfolio] with a non-empty, unrecorded token and
    [delete_portfolio] of the id it created, every [create_portfolio] with
    that token raises [KeyError] of the deleted id, whatever its other
    arguments: deletion does not forget the token. *)
Theorem create_delete_create_raises
    s t display descr provider tgs uuid4 now :
  t ≠ "" →
  idempotency_tokens s !! t = None →
  ∃ r s',
    create_portfolio get_partition isoformat
      display descr provider tgs (Some t) uuid4 now s = Returns r s' ∧
    ∀ display2 descr2 provider2 tgs2 uuid2 now2,
      create_portfolio get_partition isoformat
        display2 descr2 provider2 tgs2 (Some t) uuid2 now2
        (delete_portfolio uuid4 s')
      = Raises (KeyError uuid4).
Proof.
  intros Ht Hnew.
  destruct (create_fresh_spec get_partition isoformat display descr provider
              tgs (Some t) uuid4 now s) as (p & _ & Hc).
  eexists _, _. split.
  - rewrite create_portfolio_unseen.
    + rewrite Hc. reflexivity.
    + unfold seen_token. by rewrite truthy_str_nonempty.
  - intros. apply create_portfolio_stale.
    + unfold seen_token. rewrite truthy_str_nonempty by done.
      rewrite delete_portfolio_state. simpl. apply lookup_insert_eq.
    + rewrite delete_portfolio_state. simpl. apply dict_get_del_eq.
Qed.

(** X12. [create_portfolio_share] and [delete_portfolio_share] never
    touch the portfolios, the idempotency tokens or the access list of
    another portfolio, and with no account id (or the empty one) they leave
    the whole registry as it is. *)
Theorem share_operations_frame s pid account node (tg pr : bool) :
  let s1 := (create_portfolio_share pid account node tg pr s).2 in
  let s2 := (delete_portfolio_share pid account node s).2 in
  (portfolios s1 = portfolios s ∧
   idempotency_tokens s1 = idempotency_tokens s ∧
   ∀ k, k ≠ pid → portfolio_access s1 !! k = portfolio_access s !! k) ∧
  (portfolios s2 = portfolios s ∧
   idempotency_tokens s2 = idempotency_tokens s ∧
   ∀ k, k ≠ pid → portfolio_access s2 !! k = portfolio_access s !! k) ∧
  (account = None ∨ account = Some "" → s1 = s ∧ s2 = s).
Proof.
  cbv zeta. split; [|split].
  - destruct (create_portfolio_share_state pid account node tg pr s)
      as [->|(a & l & _ & _ & _ & ->)]; [done|]. simpl.
    split_and!; [done..|]. intros k Hk. by rewrite lookup_insert_ne.
  - destruct (delete_portfolio_share_state pid account node s)
      as [->|(a & l & _ & _ & _ & _ & ->)]; [done|]. simpl.
    split_and!; [done..|]. intros k Hk. by rewrite lookup_insert_ne.
  - intros Hacc.
    assert (truthy_str account = None) as Ht by (by destruct Hacc as [->| ->]).
    unfold create_portfolio_share, delete_portfolio_share. rewrite Ht.
    by destruct (negb (dict_in pid (portfolios s))).
Qed.

(** X13. [delete_portfolio_share] leaves the registry unchanged when the
    portfolio has no access list (unknown id) or when the account id is not
    in it; otherwise it drops the first occurrence of the account id from
    that list. *)
Theorem delete_portfolio_share_cases s pid account node :
  (portfolio_access s !! pid = None →
   (delete_portfolio_share pid account node s).2 = s) ∧
  (∀ a l, account = Some a → portfolio_access s !! pid = Some l → a ∉ l →
     (delete_portfolio_share pid account node s).2 = s) ∧
  (∀ a l, account = Some a → a ≠ "" →
     portfolio_access s !! pid = Some l → a ∈ l →
     portfolio_access (delete_portfolio_share pid account node s).2 !! pid
     = Some (list_remove a l)).
Proof.
  split; [|split].
  - intros Hnone. unfold delete_portfolio_share; cbn [snd]. rewrite Hnone.
    by destruct (truthy_str account).
  - intros a l -> Hl Hnot. unfold delete_portfolio_share; cbn [snd].
    rewrite Hl. destruct (truthy_str (Some a)) as [a'|] eqn:Ht; [|done].
    apply truthy_str_Some in Ht as [[= <-] _].
    by rewrite bool_decide_eq_false_2.
  - intros a l -> Ha Hl Hin.
    rewrite (delete_portfolio_share_access _ _ _ _ _ Hl).
    by rewrite decide_False.
Qed.

(** X14. For a live portfolio, the token [delete_portfolio_share] returns
    for an organization node is the token [create_portfolio_share] returns
    for that node with both flags off; it does not depend on the account id
    given to [delete_portfolio_share]. *)
Theorem delete_share_token_matches_create s pid account node :
  dict_in pid (portfolios s) = true →
  (delete_portfolio_share pid account node s).1
  = (create_portfolio_share pid None node false false s).1.
Proof.
  intros Hlive. unfold delete_portfolio_share, create_portfolio_share.
  rewrite Hlive. cbn [negb truthy_str fst].
  by destruct (truthy_dict node).
Qed.

(** X15. An organization node that is not empty but has neither a [Type]
    nor a [Value] key yields empty segments: [create_portfolio_share] on a
    live portfolio returns [share-<id>--] followed by the flag suffixes. *)
Theorem create_portfolio_share_missing_keys
    s pid (node : gmap string string) (tg pr : bool) :
  dict_in pid (portfolios s) = true →
  node ≠ ∅ →
  node !! "Type" = None →
  node !! "Value" = None →
  create_portfolio_share pid None (Some node) tg pr s
  = (Some ("share-" +:+ pid +:+ "--" +:+
           (if tg then "-tags" else "") +:+
           (if pr then "-principals" else "")), s).
Proof.
  intros Hlive Hne Ht Hv. unfold create_portfolio_share.
  rewrite Hlive. cbn [negb truthy_str].
  assert (truthy_dict (Some node) = Some node) as ->
    by (by apply truthy_dict_Some).
  unfold get_or_empty. rewrite Ht, Hv. cbn [default]. do 2 f_equal.
  by destruct tg, pr; rewrite ?append_assoc, ?append_nil_l, ?append_nil_r.
Qed.

Lemma default_truthy_str x : default "" (truthy_str x) = default "" x.
Proof.
  destruct x as [d|]; [|done]. simpl. by destruct (decide (d = "")) as [->|].
Qed.

Lemma default_truthy_list {A} (x : option (list A)) :
  default [] (truthy_list x) = default [] x.
Proof. by destruct x as [[|? ?]|]. Qed.

(** X16. With a fresh or absent token, [create_portfolio] returns a summary
    with the generated id, the given display and provider names, the given
    description (empty when [None]), the clock reading in ISO format and an
    ARN built from the backend's region and account and the new id; it
    returns the given tags (none when [None]), stores the portfolio under
    the new id and starts it with an empty access list. *)
Theorem create_portfolio_summary
    s display descr provider tgs token uuid4 now :
  (∀ t, token = Some t → idempotency_tokens s !! t = None) →
  ∃ summary tgs' s' p,
    create_portfolio get_partition isoformat
      display descr provider tgs token uuid4 now s
    = Returns (summary, tgs') s' ∧
    summary !! "Id" = Some uuid4 ∧
    summary !! "DisplayName" = Some display ∧
    summary !! "Description" = Some (default "" descr) ∧
    summary !! "ProviderName" = Some provider ∧
    summary !! "CreatedTime" = Some (isoformat now) ∧
    summary !! "ARN"
    = Some ("arn:" +:+ get_partition (backend_region_name s) +:+ ":catalog:"
            +:+ backend_region_name s +:+ ":" +:+ backend_account_id s
            +:+ ":portfolio/" +:+ uuid4) ∧
    size summary = 6 ∧
    tgs' = default [] tgs ∧
    dict_get uuid4 (portfolios s') = Some p ∧
    to_dict get_partition isoformat p = summary ∧
    portfolio_access s' !! uuid4 = Some [].
Proof.
  intros Hfresh.
  destruct (create_fresh_spec get_partition isoformat display descr provider
              tgs token uuid4 now s)
    as (p & (Hid & Hdn & Hde & Hpn & Hct & Htg & Hreg & Hacc) & Hc).
  eexists _, _, _, p. split.
  { rewrite create_portfolio_unseen by by apply seen_token_None.
    rewrite Hc. reflexivity. }
  rewrite default_truthy_str in Hde. rewrite default_truthy_list in Htg.
  unfold to_dict. split_and!.
  - rewrite !lookup_insert_ne by done. by rewrite lookup_insert_eq, Hid.
  - rewrite !lookup_insert_ne by done. by rewrite lookup_insert_eq, Hdn.
  - rewrite !lookup_insert_ne by done. by rewrite lookup_insert_eq, Hde.
  - by rewrite lookup_insert_eq, Hpn.
  - rewrite !lookup_insert_ne by done. by rewrite lookup_insert_eq, Hct.
  - rewrite !lookup_insert_ne by done. rewrite lookup_insert_eq.
    unfold arn. by rewrite Hid, Hreg, Hacc.
  - rewrite !map_size_insert_None; [by rewrite map_size_empty|..];
      rewrite ?lookup_insert_ne by done; apply lookup_empty.
  - done.
  - simpl. apply dict_get_set_eq.
  - done.
  - simpl. apply lookup_insert_eq.
Qed.

Lemma run_all_scope_from cs s :
  backend_region_name (run_all get_partition isoformat cs s)
  = backend_region_name s ∧
  backend_account_id (run_all get_partition isoformat cs s)
  = backend_account_id s.
Proof.
  revert s. induction cs as [|c cs IH]; intros s; [done|]. simpl.
  destruct (IH (run get_partition isoformat c s)) as [-> ->].
  apply run_scope.
Qed.

(** X17. No call changes the region or the account of the backend: after
    any sequence of calls they are the ones given to the constructor. *)
Theorem run_all_scope cs region account :
  backend_region_name
    (run_all get_partition isoformat cs (init region account)) = region ∧
  backend_account_id
    (run_all get_partition isoformat cs (init region account)) = account.
Proof. apply (run_all_scope_from cs (init region account)). Qed.

(** X18. After [delete_portfolio] of an id, whether or not it existed, the
    access listing of that id is empty, [create_portfolio_share] for it
    returns [None] and both share operations leave the registry as the
    deletion left it. *)
Theorem after_delete_portfolio s id account node (tg pr : bool) :
  let s' := delete_portfolio id s in
  list_portfolio_access_body id s' = [] ∧
  create_portfolio_share id account node tg pr s' = (None, s') ∧
  (delete_portfolio_share id account node s').2 = s'.
Proof.
  cbv zeta. split_and!.
  - unfold list_portfolio_access_body. rewrite delete_portfolio_state.
    simpl. by rewrite lookup_delete_eq.
  - apply share_of_unknown_portfolio. apply dict_in_false.
    rewrite delete_portfolio_state. simpl. apply dict_get_del_eq.
  - unfold delete_portfolio_share; cbn [snd].
    assert (portfolio_access (delete_portfolio id s) !! id = None) as ->.
    { rewrite delete_portfolio_state. simpl. apply lookup_delete_eq. }
    by destruct (truthy_str account).
Qed.

End further_properties.

(** ** The further properties on the concrete registry *)

Lemma reachable_two_portfolios :
  reachable aws_partition clock_isoformat two_portfolios.
Proof. apply reachable_step, reachable_one_portfolio. Qed.

Lemma create_portfolio_raises_iff_witness :
  create_portfolio aws_partition clock_isoformat
    "Other name" None "someone else" (Some [org_node])
    (Some "retry-1") uuid_b 5 after_delete
  = Raises (KeyError uuid_a).
Proof.
  apply (proj2 (create_portfolio_raises_iff aws_partition clock_isoformat
                  "Other name" None "someone else" (Some [org_node])
                  (Some "retry-1") uuid_b 5 after_delete (KeyError uuid_a))).
  exists "retry-1", uuid_a. split; [reflexivity|].
  split; [vm_compute; discriminate|].
  split; [vm_compute; reflexivity|].
  split; [vm_compute; reflexivity|reflexivity].
Defined.

Lemma create_portfolio_returns_without_delete_witness :
  ∃ r s',
    create_portfolio aws_partition clock_isoformat
      "Dev tools" None "platform" None (Some "retry-1") uuid_b 4
      (run_all aws_partition clock_isoformat
         [CreatePortfolio "Dev tools" None "platform" None
            (Some "retry-1") uuid_a 1;
          CreatePortfolioShare uuid_a (Some "111111111111") None false false;
          DeletePortfolioShare uuid_a (Some "111111111111") None]
         (init "us-east-1" "123456789012"))
    = Returns r s'.
Proof.
  apply create_portfolio_returns_without_delete. vm_compute. reflexivity.
Defined.

Lemma reachable_access_lists_distinct_witness :
  NoDup ["111111111111"; "222222222222"] ∧
  "" ∉ ["111111111111"; "222222222222"].
Proof.
  apply (reachable_access_lists_distinct aws_partition clock_isoformat
           two_grants uuid_a).
  - exact reachable_two_grants.
  - vm_compute. reflexivity.
Defined.

Lemma reachable_access_keys_live_witness :
  is_Some (dict_get uuid_a (portfolios two_grants)).
Proof.
  apply (reachable_access_keys_live aws_partition clock_isoformat).
  - exact reachable_two_grants.
  - vm_compute. eexists. reflexivity.
Defined.

Lemma reachable_portfolio_scope_witness :
  ∃ p,
    dict_get uuid_a (portfolios one_portfolio) = Some p ∧
    portfolio_id p = uuid_a ∧
    region_name p = "us-east-1" ∧
    account_id p = "123456789012" ∧
    to_dict aws_partition clock_isoformat p !! "Id" = Some uuid_a ∧
    to_dict aws_partition clock_isoformat p !! "ARN"
    = Some ("arn:" +:+ "aws" +:+ ":catalog:" +:+ "us-east-1" +:+ ":" +:+
            "123456789012" +:+ ":portfolio/" +:+ uuid_a).
Proof.
  eexists. split; [vm_compute; reflexivity|].
  apply (reachable_portfolio_scope aws_partition clock_isoformat
           one_portfolio uuid_a).
  - exact reachable_one_portfolio.
  - vm_compute. reflexivity.
Defined.

Lemma list_portfolios_ids_distinct_witness :
  listed_ids (list_portfolios aws_partition clock_isoformat two_portfolios).1
  = Some <$> dict_keys (portfolios two_portfolios) ∧
  NoDup (listed_ids
           (list_portfolios aws_partition clock_isoformat two_portfolios).1).
Proof.
  apply list_portfolios_ids_distinct. exact reachable_two_portfolios.
Defined.

Lemma list_portfolios_after_create_witness :
  ∃ summary tgs' s',
    create_portfolio aws_partition clock_isoformat
      "Data tools" None "analytics" None None uuid_b 2 one_portfolio
    = Returns (summary, tgs') s' ∧
    (list_portfolios aws_partition clock_isoformat s').1
    = (list_portfolios aws_partition clock_isoformat one_portfolio).1
      ++ [summary].
Proof.
  apply list_portfolios_after_create.
  - vm_compute. reflexivity.
  - intros t Ht. discriminate Ht.
Defined.

Lemma list_portfolios_after_delete_witness :
  (list_portfolios aws_partition clock_isoformat
     (delete_portfolio uuid_a two_portfolios)).1
  = filter (λ d : gmap string string, d !! "Id" ≠ Some uuid_a)
           (list_portfolios aws_partition clock_isoformat two_portfolios).1.
Proof.
  apply list_portfolios_after_delete. exact reachable_two_portfolios.
Defined.

Lemma share_then_unshare_witness :
  (delete_portfolio_share uuid_a (Some "111111111111") (Some org_node)
     (create_portfolio_share uuid_a (Some "111111111111") None true false
        one_portfolio).2).2 = one_portfolio.
Proof.
  apply (share_then_unshare one_portfolio uuid_a "111111111111" []).
  - vm_compute. reflexivity.
  - vm_compute. discriminate.
  - vm_compute. reflexivity.
  - apply not_elem_of_nil.
Defined.

Lemma create_then_delete_witness :
  ∃ r s',
    create_portfolio aws_partition clock_isoformat
      "Data tools" None "analytics" None None uuid_b 2 one_portfolio
    = Returns r s' ∧
    delete_portfolio uuid_b s' = one_portfolio.
Proof.
  apply create_then_delete.
  - exact reachable_one_portfolio.
  - vm_compute. reflexivity.
  - left. reflexivity.
Defined.

Lemma create_delete_create_raises_witness :
  ∃ r s',
    create_portfolio aws_partition clock_isoformat
      "Data tools" None "analytics" None (Some "retry-2") uuid_b 2
      one_portfolio = Returns r s' ∧
    ∀ display2 descr2 provider2 tgs2 uuid2 now2,
      create_portfolio aws_partition clock_isoformat
        display2 descr2 provider2 tgs2 (Some "retry-2") uuid2 now2
        (delete_portfolio uuid_b s')
      = Raises (KeyError uuid_b).
Proof.
  apply create_delete_create_raises.
  - vm_compute. discriminate.
  - vm_compute. reflexivity.
Defined.

Lemma share_operations_frame_witness :
  (create_portfolio_share uuid_a None (Some org_node) true true
     one_portfolio).2 = one_portfolio ∧
  (delete_portfolio_share uuid_a None (Some org_node) one_portfolio).2
  = one_portfolio.
Proof.
  apply (proj2 (proj2 (share_operations_frame one_portfolio uuid_a None
                         (Some org_node) true true))).
  left. reflexivity.
Defined.

Lemma delete_portfolio_share_cases_witness :
  (delete_portfolio_share uuid_b (Some "111111111111") None
     one_portfolio).2 = one_portfolio.
Proof.
  apply (proj1 (delete_portfolio_share_cases one_portfolio uuid_b
                  (Some "111111111111") None)).
  vm_compute. reflexivity.
Defined.

Lemma delete_share_token_matches_create_witness :
  (delete_portfolio_share uuid_a (Some "111111111111") (Some org_node)
     one_portfolio).1
  = (create_portfolio_share uuid_a None (Some org_node) false false
       one_portfolio).1.
Proof.
  apply delete_share_token_matches_create. vm_compute. reflexivity.
Defined.

Lemma create_portfolio_share_missing_keys_witness :
  create_portfolio_share uuid_a None (Some (<["Name" := "unit"]> ∅))
    true false one_portfolio
  = (Some ("share-" +:+ uuid_a +:+ "--" +:+ "-tags" +:+ ""), one_portfolio).
Proof.
  apply (create_portfolio_share_missing_keys one_portfolio uuid_a
           (<["Name" := "unit"]> ∅) true false).
  - vm_compute. reflexivity.
  - vm_compute. discriminate.
  - vm_compute. reflexivity.
  - vm_compute. reflexivity.
Defined.

Lemma create_portfolio_summary_witness :
  ∃ summary tgs' s' p,
    create_portfolio aws_partition clock_isoformat
      "Data tools" None "analytics" None (Some "retry-2") uuid_b 2
      one_portfolio
    = Returns (summary, tgs') s' ∧
    summary !! "Id" = Some uuid_b ∧
    summary !! "DisplayName" = Some "Data tools" ∧
    summary !! "Description" = Some "" ∧
    summary !! "ProviderName" = Some "analytics" ∧
    summary !! "CreatedTime" = Some (clock_isoformat 2) ∧
    summary !! "ARN"
    = Some ("arn:" +:+ "aws" +:+ ":catalog:" +:+ "us-east-1" +:+ ":" +:+
            "123456789012" +:+ ":portfolio/" +:+ uuid_b) ∧
    size summary = 6 ∧
    tgs' = [] ∧
    dict_get uuid_b (portfolios s') = Some p ∧
    to_dict aws_partition clock_isoformat p = summary ∧
    portfolio_access s' !! uuid_b = Some [].
Proof.
  apply (create_portfolio_summary aws_partition clock_isoformat
           one_portfolio "Data tools" None "analytics" None
           (Some "retry-2") uuid_b 2).
  intros t [= <-]. vm_compute. reflexivity.
Defined.
